(** * array_view.hpp: a shallow embedding of array_view, its bound iterator
      and strided_array_view, with the properties checked against it.

    Conventions of the embedding:
    - [std::size_t] and [std::ptrdiff_t] are 64-bit; values are kept in [Z]
      and every place where the C++ arithmetic is modular writes the
      wrap-around out ([to_size_t], [to_ptrdiff_t]).  Signed overflow is
      undefined in C++ and is reported as [UB].
    - A pointer is [nullptr] or an address; [T*] arithmetic counts elements,
      byte pointer arithmetic counts bytes.
    - [ARRAY_VIEW_DEBUG_CHECKS] is the boolean argument [dbg] of every
      function whose body has an [#if ARRAY_VIEW_DEBUG_CHECKS] block.
    - [ARRAY_VIEW_ERROR(message)] never returns to its caller (it aborts or
      throws); it is the [Err] outcome, carrying which message was raised.
    - A reference returned by an accessor is modelled by the value read
      through it. *)

From Stdlib Require Import ZArith Lia String.
From stdpp Require Import base option gmap.

Local Open Scope Z_scope.

(** ** Machine integers *)

Definition size_bits : Z := 64.
Definition SIZE_MAX : Z := 2 ^ size_bits - 1.
Definition PTRDIFF_MAX : Z := 2 ^ (size_bits - 1) - 1.
Definition PTRDIFF_MIN : Z := - 2 ^ (size_bits - 1).

(** Conversion to [size_type]: reduction modulo 2^64. *)
Definition to_size_t (z : Z) : Z := z mod 2 ^ size_bits.

(** Conversion to [difference_type]: two's complement reinterpretation. *)
Definition to_ptrdiff_t (z : Z) : Z :=
  (z + 2 ^ (size_bits - 1)) mod 2 ^ size_bits - 2 ^ (size_bits - 1).

Definition in_size_t (z : Z) : Prop := 0 <= z <= SIZE_MAX.
Definition in_ptrdiff_t (z : Z) : Prop := PTRDIFF_MIN <= z <= PTRDIFF_MAX.

Definition fits_ptrdiff_t (z : Z) : bool :=
  (PTRDIFF_MIN <=? z) && (z <=? PTRDIFF_MAX).

(** ** Pointers *)

Inductive pointer : Type :=
  | nullptr
  | addr (a : Z).

#[global] Instance pointer_eq_dec : EqDecision pointer.
Proof. solve_decision. Defined.

Definition ptr_eqb (p q : pointer) : bool := bool_decide (p = q).

(** Pointer arithmetic.  C++ defines [p + k] only while the result stays
    inside the array [p] points into (or one past its end); this is the
    arithmetic on those results.  Addresses are not reduced modulo the
    machine word, so nothing is to be read off it for a displacement that
    leaves the array. *)
Definition ptr_add (p : pointer) (k : Z) : pointer :=
  match p with
  | nullptr => nullptr
  | addr a => addr (a + k)
  end.

(** ** Errors raised through ARRAY_VIEW_ERROR *)

(** One constructor per call of the macro in the source. *)
Inductive error : Type :=
  | iterator_star_not_dereferenceable
  | iterator_arrow_not_dereferenceable
  | iterator_index_not_dereferenceable
  | iterator_index_out_of_bounds
  | iterators_different_objects
  | incrementing_invalid_iterator
  | decrementing_invalid_iterator
  | slice1_offset_ge_size
  | slice2_offset_ge_size
  | slice_zero_size
  | slice_size_gt_total
  | at_out_of_bounds
  | index_out_of_bounds
  | view_null_or_empty
  | strided_null_pointer
  | strided_at_out_of_bounds
  | strided_index_out_of_bounds.

Definition message (e : error) : string :=
  match e with
  | iterator_star_not_dereferenceable =>
      "array_iterator_base::operator*: iterator not dereferenceable!"
  | iterator_arrow_not_dereferenceable =>
      "array_iterator_base::operator->: iterator not dereferenceable!"
  | iterator_index_not_dereferenceable =>
      "array_iterator_base::operator[]: iterator not dereferenceable!"
  | iterator_index_out_of_bounds =>
      "array_iterator_base::operator[]: array index is out-of-bounds!"
  | iterators_different_objects =>
      "Array iterators belong to different objects!"
  | incrementing_invalid_iterator =>
      "Incrementing an invalid array iterator!"
  | decrementing_invalid_iterator =>
      "Decrementing an invalid array iterator!"
  | slice1_offset_ge_size =>
      "array_view slice offset greater or equal size!"
  | slice2_offset_ge_size =>
      "array_view slice offset greater or equal size!"
  | slice_zero_size =>
      "array_view slice with zero size!"
  | slice_size_gt_total =>
      "array_view slice size is greater than total size!"
  | at_out_of_bounds =>
      "array_view::at(): index is out-of-bounds!"
  | index_out_of_bounds =>
      "array_view::operator[]: index is out-of-bounds!"
  | view_null_or_empty =>
      "array_view pointer is null or size is zero!"
  | strided_null_pointer =>
      "strided_array_view: null pointer!"
  | strided_at_out_of_bounds =>
      "strided_array_view::at(): index is out-of-bounds!"
  | strided_index_out_of_bounds =>
      "strided_array_view::operator[]: index is out-of-bounds!"
  end.

(** The four error kinds by which the specification names these messages. *)
Inductive error_kind : Type :=
  | NullAccess
  | OutOfBounds
  | MalformedSlice
  | CrossViewOperation.

Definition kind (e : error) : error_kind :=
  match e with
  | iterator_star_not_dereferenceable
  | iterator_arrow_not_dereferenceable
  | iterator_index_not_dereferenceable
  | incrementing_invalid_iterator
  | decrementing_invalid_iterator
  | view_null_or_empty
  | strided_null_pointer => NullAccess
  | iterator_index_out_of_bounds
  | at_out_of_bounds
  | index_out_of_bounds
  | strided_at_out_of_bounds
  | strided_index_out_of_bounds
  | slice1_offset_ge_size => OutOfBounds
  | slice2_offset_ge_size
  | slice_zero_size
  | slice_size_gt_total => MalformedSlice
  | iterators_different_objects => CrossViewOperation
  end.

(** ** Outcome of a call: a value, a raised error, or undefined behaviour *)

Inductive result (A : Type) : Type :=
  | Ok (a : A)
  | Err (e : error)
  | UB.

Arguments Ok {A} a.
Arguments Err {A} e.
Arguments UB {A}.

#[global] Instance result_ret : MRet result := fun A a => Ok a.

#[global] Instance result_bind : MBind result := fun A B f r =>
  match r with
  | Ok a => f a
  | Err e => Err e
  | UB => UB
  end.

#[global] Instance result_fmap : FMap result := fun A B f r =>
  match r with
  | Ok a => Ok (f a)
  | Err e => Err e
  | UB => UB
  end.

(** The body of an [#if ARRAY_VIEW_DEBUG_CHECKS ... #endif] block. *)
Definition debug_only (dbg : bool) (checks : result ()) : result () :=
  if dbg then checks else Ok ().

(** [if (cond) { ARRAY_VIEW_ERROR(msg); }] *)
Definition error_if (cond : bool) (e : error) : result () :=
  if cond then Err e else Ok ().

(** Whether a call raised an error of kind [k]. *)
Definition fails_with {A : Type} (r : result A) (k : error_kind) : Prop :=
  exists e, r = Err e /\ kind e = k.

(** ** Memory: the objects of type T that live at each address *)

Definition load {T : Type} (mem : gmap Z T) (p : pointer) : result T :=
  match p with
  | nullptr => UB
  | addr a =>
      match mem !! a with
      | Some x => Ok x
      | None => UB
      end
  end.

(** ** template class array_view *)

Record array_view : Type := mk_array_view {
  m_pointer : pointer;
  m_size_in_items : Z
}.

#[global] Instance array_view_eq_dec : EqDecision array_view.
Proof. solve_decision. Defined.

(** [array_view()] *)
Definition array_view_default : array_view :=
  {| m_pointer := nullptr; m_size_in_items := 0 |}.

(** [array_view(ConvertibleType * array_ptr, size_type size_in_items)] *)
Definition array_view_of (array_ptr : pointer) (size_in_items : Z) : array_view :=
  {| m_pointer := array_ptr; m_size_in_items := size_in_items |}.

Definition reset (v : array_view) : array_view :=
  {| m_pointer := nullptr; m_size_in_items := 0 |}.

Definition size (v : array_view) : Z := m_size_in_items v.
Definition empty (v : array_view) : bool := size v =? 0.
Definition data (v : array_view) : pointer := m_pointer v.

(** [operator == (std::nullptr_t)] *)
Definition is_null (v : array_view) : bool := ptr_eqb (data v) nullptr.

Definition check_not_null (v : array_view) : result () :=
  error_if (ptr_eqb (data v) nullptr || empty v) view_null_or_empty.

(** [slice(offset_in_items, item_count)] *)
Definition slice2 (dbg : bool) (v : array_view)
    (offset_in_items item_count : Z) : result array_view :=
  if ptr_eqb (data v) nullptr || empty v || (item_count =? 0) then
    Ok array_view_default
  else
    debug_only dbg (
      error_if (item_count =? 0) slice_zero_size;;
      error_if (size v <=? offset_in_items) slice2_offset_ge_size;;
      error_if (size v <? to_size_t (offset_in_items + item_count))
        slice_size_gt_total);;
    Ok {| m_pointer := ptr_add (m_pointer v) offset_in_items;
          m_size_in_items := item_count |}.

(** [slice(offset_in_items)] *)
Definition slice1 (dbg : bool) (v : array_view)
    (offset_in_items : Z) : result array_view :=
  if ptr_eqb (data v) nullptr || empty v then
    Ok array_view_default
  else
    debug_only dbg (error_if (size v <=? offset_in_items) slice1_offset_ge_size);;
    slice2 dbg v offset_in_items (to_size_t (size v - offset_in_items)).

Section element_access.
Context {T : Type}.
Implicit Types (mem : gmap Z T) (v : array_view).

(** [at(index)]: always checked. *)
Definition at_ mem v (index : Z) : result T :=
  check_not_null v;;
  error_if (size v <=? index) at_out_of_bounds;;
  load mem (ptr_add (data v) index).

(** [operator[](index)]: checked in debug builds only. *)
Definition subscript (dbg : bool) mem v (index : Z) : result T :=
  debug_only dbg (
    check_not_null v;;
    error_if (size v <=? index) index_out_of_bounds);;
  load mem (ptr_add (data v) index).

Definition front (dbg : bool) mem v : result T :=
  debug_only dbg (check_not_null v);;
  load mem (data v).

Definition back (dbg : bool) mem v : result T :=
  debug_only dbg (check_not_null v);;
  load mem (ptr_add (ptr_add (data v) (size v)) (-1)).

End element_access.


(** ** template class array_iterator_base *)

(** [m_parent_array] is the address of the array_view object that made the
    iterator; the view objects alive at each address are in [objs]. *)
Record array_iterator_base : Type := mk_iterator {
  m_parent_array : pointer;
  m_current_index : Z
}.

#[global] Instance array_iterator_base_eq_dec : EqDecision array_iterator_base.
Proof. solve_decision. Defined.

(** [array_iterator_base()] *)
Definition iterator_default : array_iterator_base :=
  {| m_parent_array := nullptr; m_current_index := 0 |}.

(** [operator == (std::nullptr_t)] on an iterator *)
Definition iter_is_null (it : array_iterator_base) : bool :=
  ptr_eqb (m_parent_array it) nullptr.

Definition check_same_parent (it other : array_iterator_base) : result () :=
  error_if (negb (ptr_eqb (m_parent_array it) (m_parent_array other)))
    iterators_different_objects.

(** [m_current_index += displacement]; signed overflow is undefined. *)
Definition increment (dbg : bool) (it : array_iterator_base)
    (displacement : Z) : result array_iterator_base :=
  debug_only dbg
    (error_if (ptr_eqb (m_parent_array it) nullptr) incrementing_invalid_iterator);;
  if fits_ptrdiff_t (m_current_index it + displacement) then
    Ok {| m_parent_array := m_parent_array it;
          m_current_index := m_current_index it + displacement |}
  else UB.

Definition decrement (dbg : bool) (it : array_iterator_base)
    (displacement : Z) : result array_iterator_base :=
  debug_only dbg
    (error_if (ptr_eqb (m_parent_array it) nullptr) decrementing_invalid_iterator);;
  if fits_ptrdiff_t (m_current_index it - displacement) then
    Ok {| m_parent_array := m_parent_array it;
          m_current_index := m_current_index it - displacement |}
  else UB.

(** [operator - (const array_iterator_base & other)] *)
Definition iter_diff (dbg : bool) (it other : array_iterator_base) : result Z :=
  debug_only dbg (check_same_parent it other);;
  if fits_ptrdiff_t (m_current_index it - m_current_index other) then
    Ok (m_current_index it - m_current_index other)
  else UB.

(** [operator + (difference_type)], [operator - (difference_type)] *)
Definition iter_plus (dbg : bool) (it : array_iterator_base) (displacement : Z) :
    result array_iterator_base :=
  increment dbg it displacement.

Definition iter_minus (dbg : bool) (it : array_iterator_base) (displacement : Z) :
    result array_iterator_base :=
  decrement dbg it displacement.

(** Pre-increment and pre-decrement. *)
Definition iter_incr (dbg : bool) (it : array_iterator_base) :
    result array_iterator_base :=
  increment dbg it 1.

Definition iter_decr (dbg : bool) (it : array_iterator_base) :
    result array_iterator_base :=
  decrement dbg it 1.

Definition iter_eq (dbg : bool) (it other : array_iterator_base) : result bool :=
  debug_only dbg (check_same_parent it other);;
  Ok (m_current_index it =? m_current_index other).

Definition iter_ne (dbg : bool) (it other : array_iterator_base) : result bool :=
  negb <$> iter_eq dbg it other.

Definition iter_lt (dbg : bool) (it other : array_iterator_base) : result bool :=
  debug_only dbg (check_same_parent it other);;
  Ok (m_current_index it <? m_current_index other).

Definition iter_gt (dbg : bool) (it other : array_iterator_base) : result bool :=
  debug_only dbg (check_same_parent it other);;
  Ok (m_current_index it >? m_current_index other).

Definition iter_le (dbg : bool) (it other : array_iterator_base) : result bool :=
  negb <$> iter_gt dbg it other.

Definition iter_ge (dbg : bool) (it other : array_iterator_base) : result bool :=
  negb <$> iter_lt dbg it other.

(** [friend void swap(lhs, rhs) noexcept]: the two objects after the call. *)
Definition iter_swap (lhs rhs : array_iterator_base) :
    array_iterator_base * array_iterator_base :=
  ({| m_parent_array := m_parent_array rhs; m_current_index := m_current_index rhs |},
   {| m_parent_array := m_parent_array lhs; m_current_index := m_current_index lhs |}).

(** [*m_parent_array]: the view object behind the parent pointer. *)
Definition deref_parent (objs : gmap Z array_view) (p : pointer) : result array_view :=
  match p with
  | nullptr => UB
  | addr a =>
      match objs !! a with
      | Some v => Ok v
      | None => UB
      end
  end.

(** [m_parent_array != nullptr && m_current_index >= 0 &&
     static_cast<size_type>(m_current_index) < m_parent_array->size()] *)
Definition is_dereferenceable (objs : gmap Z array_view)
    (it : array_iterator_base) : result bool :=
  if ptr_eqb (m_parent_array it) nullptr then Ok false
  else if m_current_index it <? 0 then Ok false
  else
    v ← deref_parent objs (m_parent_array it);
    Ok (to_size_t (m_current_index it) <? size v).

Section iterator_access.
Context {T : Type}.
Implicit Types (mem : gmap Z T) (objs : gmap Z array_view).

Definition not_dereferenceable objs (it : array_iterator_base) (e : error) : result () :=
  ok ← is_dereferenceable objs it;
  error_if (negb ok) e.

(** [operator*] *)
Definition iter_star (dbg : bool) objs mem (it : array_iterator_base) : result T :=
  debug_only dbg (not_dereferenceable objs it iterator_star_not_dereferenceable);;
  v ← deref_parent objs (m_parent_array it);
  subscript dbg mem v (to_size_t (m_current_index it)).

(** [operator->] *)
Definition iter_arrow (dbg : bool) objs mem (it : array_iterator_base) : result T :=
  debug_only dbg (not_dereferenceable objs it iterator_arrow_not_dereferenceable);;
  v ← deref_parent objs (m_parent_array it);
  subscript dbg mem v (to_size_t (m_current_index it)).

(** [operator[](index)] on an iterator *)
Definition iter_index (dbg : bool) objs mem (it : array_iterator_base)
    (index : Z) : result T :=
  debug_only dbg (not_dereferenceable objs it iterator_index_not_dereferenceable);;
  let array_index := to_size_t (m_current_index it + index) in
  debug_only dbg (
    v ← deref_parent objs (m_parent_array it);
    error_if (size v <=? array_index) iterator_index_out_of_bounds);;
  v ← deref_parent objs (m_parent_array it);
  subscript dbg mem v array_index.

End iterator_access.

(** ** array_view: iterators and comparison *)

(** [make_iterator(start_offset)] of the view object [v] at address [this]. *)
Definition make_iterator (this : Z) (v : array_view) (start_offset : Z) :
    array_iterator_base :=
  if negb (ptr_eqb (data v) nullptr) then
    {| m_parent_array := addr this; m_current_index := start_offset |}
  else iterator_default.

Definition begin (this : Z) (v : array_view) : array_iterator_base :=
  make_iterator this v 0.

(** [end()]: [size()] is converted from [size_type] to [difference_type]. *)
Definition end_ (this : Z) (v : array_view) : array_iterator_base :=
  make_iterator this v (to_ptrdiff_t (size v)).

Section comparison.
Context {T : Type} (T_eq : T -> T -> bool).
Implicit Types (mem : gmap Z T) (objs : gmap Z array_view).

(** [std::equal(first1, last1, first2)] of the C++ standard library, as the
    loop the standard gives for it:
    [for (; first1 != last1; ++first1, ++first2)
       if (!( *first1 == *first2 )) return false;
     return true;]
    [equal_step] is one turn of the loop after its test: [None] for
    [return false], otherwise the two advanced iterators. *)
Definition equal_step (dbg : bool) objs mem (first1 first2 : array_iterator_base) :
    result (option (array_iterator_base * array_iterator_base)) :=
  x ← iter_star dbg objs mem first1;
  y ← iter_star dbg objs mem first2;
  if negb (T_eq x y) then Ok None
  else
    first1' ← iter_incr dbg first1;
    first2' ← iter_incr dbg first2;
    Ok (Some (first1', first2')).

(** The loop; [None] when the fuel runs out before it ends. *)
Fixpoint std_equal (fuel : nat) (dbg : bool) objs mem
    (first1 last1 first2 : array_iterator_base) : option (result bool) :=
  match fuel with
  | O => None
  | S fuel' =>
      match iter_ne dbg first1 last1 with
      | Ok true =>
          match equal_step dbg objs mem first1 first2 with
          | Ok (Some (first1', first2')) =>
              std_equal fuel' dbg objs mem first1' last1 first2'
          | Ok None => Some (Ok false)
          | Err e => Some (Err e)
          | UB => Some UB
          end
      | Ok false => Some (Ok true)
      | Err e => Some (Err e)
      | UB => Some UB
      end
  end.

(** [operator == (const array_view & other)] between the view objects at
    addresses [this] and [other]. *)
Definition view_eq (fuel : nat) (dbg : bool) objs mem (this other : Z) :
    option (result bool) :=
  match objs !! this, objs !! other with
  | Some a, Some b =>
      if ptr_eqb (data a) (data b) then Some (Ok true)
      else if negb (size a =? size b) then Some (Ok false)
      else std_equal fuel dbg objs mem (begin this a) (end_ this a) (begin other b)
  | _, _ => Some UB
  end.

Definition view_ne (fuel : nat) (dbg : bool) objs mem (this other : Z) :
    option (result bool) :=
  fmap (M := result) negb <$> view_eq fuel dbg objs mem this other.

End comparison.

(** ** template class strided_array_view *)

Module Strided.
Section strided_array_view.
(** The template parameters.  [StrideBytes = 0] makes [size()] divide by
    zero, which is undefined in the source; whatever is proved about
    [size] below is for [0 < StrideBytes]. *)
Context {T : Type} (OffsetBytes StrideBytes : Z).

(** [m_pointer] is a byte pointer. *)
Record strided_array_view : Type := mk_strided {
  m_pointer : pointer;
  m_size_in_bytes : Z
}.

(** [strided_array_view()] *)
Definition strided_default : strided_array_view :=
  {| m_pointer := nullptr; m_size_in_bytes := 0 |}.

(** [strided_array_view(StructuredType * array_ptr, size_type size_in_items)],
    with [sizeof_S = sizeof(StructuredType)]. *)
Definition strided_of (array_ptr : pointer) (size_in_items sizeof_S : Z) :
    strided_array_view :=
  {| m_pointer := array_ptr;
     m_size_in_bytes := to_size_t (size_in_items * sizeof_S) |}.

Definition data (sv : strided_array_view) : pointer := m_pointer sv.
Definition size_bytes (sv : strided_array_view) : Z := m_size_in_bytes sv.
Definition empty (sv : strided_array_view) : bool := size_bytes sv =? 0.
Definition offset_bytes : Z := OffsetBytes.
Definition stride_bytes : Z := StrideBytes.
Definition size (sv : strided_array_view) : Z := size_bytes sv / stride_bytes.

(** [operator == (std::nullptr_t)] *)
Definition is_null (sv : strided_array_view) : bool := ptr_eqb (data sv) nullptr.

(** [m_pointer + (index * stride_bytes()) + offset_bytes()]: the product is
    [size_type] arithmetic, the sums are byte pointer arithmetic. *)
Definition get_item_raw_ptr (sv : strided_array_view) (index : Z) : pointer :=
  ptr_add (ptr_add (m_pointer sv) (to_size_t (index * stride_bytes))) offset_bytes.

(** [mem] gives the object of type T found at a byte address
    ([*reinterpret_cast<pointer>(...)]). *)
Definition at_ (mem : gmap Z T) (sv : strided_array_view) (index : Z) : result T :=
  error_if (ptr_eqb (data sv) nullptr) strided_null_pointer;;
  error_if (size sv <=? index) strided_at_out_of_bounds;;
  load mem (get_item_raw_ptr sv index).

Definition subscript (dbg : bool) (mem : gmap Z T) (sv : strided_array_view)
    (index : Z) : result T :=
  debug_only dbg (
    error_if (ptr_eqb (data sv) nullptr) strided_null_pointer;;
    error_if (size sv <=? index) strided_index_out_of_bounds);;
  load mem (get_item_raw_ptr sv index).

Definition front (dbg : bool) (mem : gmap Z T) (sv : strided_array_view) : result T :=
  subscript dbg mem sv 0.

(** [operator[](size() - 1)]: the subtraction is [size_type] arithmetic. *)
Definition back (dbg : bool) (mem : gmap Z T) (sv : strided_array_view) : result T :=
  subscript dbg mem sv (to_size_t (size sv - 1)).

End strided_array_view.
End Strided.

(** ** std::reverse_iterator over array_iterator_base *)

(** [std::reverse_iterator] of the C++ standard library, by the members the
    standard gives it: it holds the base iterator [current];
    [operator*] is [Iter tmp = current; return *--tmp;],
    [operator+(n)] is [reverse_iterator(current - n)], and [==] compares
    the two base iterators. *)
Record reverse_iterator : Type := mk_reverse {
  current : array_iterator_base
}.

(** [rbegin()] is [reverse_iterator{ end() }], [rend()] is
    [reverse_iterator{ begin() }]. *)
Definition rbegin (this : Z) (v : array_view) : reverse_iterator :=
  {| current := end_ this v |}.

Definition rend (this : Z) (v : array_view) : reverse_iterator :=
  {| current := begin this v |}.

Section reverse_access.
Context {T : Type}.

Definition rev_star (dbg : bool) (objs : gmap Z array_view) (mem : gmap Z T)
    (r : reverse_iterator) : result T :=
  tmp ← iter_decr dbg (current r);
  iter_star dbg objs mem tmp.

End reverse_access.

Definition rev_plus (dbg : bool) (r : reverse_iterator) (n : Z) :
    result reverse_iterator :=
  c ← iter_minus dbg (current r) n;
  Ok {| current := c |}.

Definition rev_eq (dbg : bool) (r s : reverse_iterator) : result bool :=
  iter_eq dbg (current r) (current s).

(** ** Views and the memory behind them *)

Section backing.
Context {T : Type} (T_eq : T -> T -> bool).
Implicit Types (mem : gmap Z T) (v a b : array_view).

(** The view refers to a live buffer: it has at most PTRDIFF_MAX elements
    and each of them is an object of [mem]. *)
Definition backed_by mem v : Prop :=
  (0 <= size v <= PTRDIFF_MAX) /\
  (forall i, 0 <= i < size v -> exists x, load mem (ptr_add (data v) i) = Ok x).

(** Every element of [a] compares equal, by the [operator==] of T, to the
    element of [b] at the same index. *)
Definition pairwise_equal mem a b : Prop :=
  forall i, 0 <= i < size a ->
    exists x y, load mem (ptr_add (data a) i) = Ok x /\
                load mem (ptr_add (data b) i) = Ok y /\
                T_eq x y = true.

End backing.

(** ** Concrete scenarios *)

(** The array {0, 10, 20, 30, 40, 50} at addresses 100..105, and the view
    of it. *)
Definition six_ints : gmap Z Z :=
  <[100 := 0]> (<[101 := 10]> (<[102 := 20]> (<[103 := 30]>
    (<[104 := 40]> (<[105 := 50]> ∅))))).

Definition six_view : array_view := array_view_of (addr 100) 6.

(** [array_view<int>(static_cast<int*>(nullptr), 5)] *)
Definition null_five : array_view := array_view_of nullptr 5.

(** A view of the first two of the six elements, living at address 2000,
    and an iterator of it moved to index 5. *)
Definition two_view : array_view := array_view_of (addr 100) 2.
Definition two_objs : gmap Z array_view := <[2000 := two_view]> ∅.
Definition past_two : array_iterator_base :=
  {| m_parent_array := addr 2000; m_current_index := 5 |}.

(** Two arrays {7, 8} at addresses 10 and 20, with one view object each
    (at addresses 1 and 2), and a third view object of the first array
    with a different size (at address 3). *)
Definition pair_ints : gmap Z Z :=
  <[10 := 7]> (<[11 := 8]> (<[20 := 7]> (<[21 := 8]> ∅))).
Definition pair_objs : gmap Z array_view :=
  <[1 := array_view_of (addr 10) 2]> (<[2 := array_view_of (addr 20) 2]>
    (<[3 := array_view_of (addr 10) 1]> ∅)).

(** Four structures {x : int32, y : int32} at byte address 1000, given by
    the objects found at the address of each field; the view of field y
    has OffsetBytes = 4 and StrideBytes = 8. *)
Definition four_structs : gmap Z Z :=
  <[1000 := 1]> (<[1004 := 11]> (<[1008 := 2]> (<[1012 := 12]>
    (<[1016 := 3]> (<[1020 := 13]> (<[1024 := 4]> (<[1028 := 14]> ∅))))))).
Definition four_y : Strided.strided_array_view := Strided.strided_of (addr 1000) 4 8.

(** A strided view of zero bytes at the same address. *)
Definition zero_bytes : Strided.strided_array_view := Strided.strided_of (addr 1000) 0 8.

(** A view made from a null pointer and the count 2 (at address 1), beside
    the view of the array {7, 8} at address 20 (at address 2). *)
Definition null_two : array_view := array_view_of nullptr 2.
Definition null_pair_objs : gmap Z array_view :=
  <[1 := null_two]> (<[2 := array_view_of (addr 20) 2]> ∅).

(** One structure of 5 bytes, viewed with StrideBytes = 8. *)
Definition short_view : Strided.strided_array_view := Strided.strided_of (addr 1000) 1 5.

(** Iterators of the two view objects of [pair_objs]. *)
Definition iter_of_one : array_iterator_base := begin 1 (array_view_of (addr 10) 2).
Definition iter_of_two : array_iterator_base := end_ 2 (array_view_of (addr 20) 2).

(** * Properties *)

(** ** Helper facts *)

Lemma ptr_eqb_true (p q : pointer) : ptr_eqb p q = true <-> p = q.
Proof. unfold ptr_eqb. apply bool_decide_eq_true. Qed.

Lemma ptr_eqb_false (p q : pointer) : ptr_eqb p q = false <-> p <> q.
Proof. unfold ptr_eqb. apply bool_decide_eq_false. Qed.

Lemma ptr_eqb_refl (p : pointer) : ptr_eqb p p = true.
Proof. apply ptr_eqb_true. reflexivity. Qed.

Lemma to_size_t_id (z : Z) : in_size_t z -> to_size_t z = z.
Proof.
  unfold in_size_t, SIZE_MAX, to_size_t. intros H.
  apply Z.mod_small. lia.
Qed.

Lemma to_ptrdiff_t_id (z : Z) : in_ptrdiff_t z -> to_ptrdiff_t z = z.
Proof.
  unfold in_ptrdiff_t, PTRDIFF_MIN, PTRDIFF_MAX, to_ptrdiff_t, size_bits.
  intros H. rewrite Z.mod_small; lia.
Qed.

Lemma to_ptrdiff_t_range (z : Z) : in_ptrdiff_t (to_ptrdiff_t z).
Proof.
  unfold in_ptrdiff_t, PTRDIFF_MIN, PTRDIFF_MAX, to_ptrdiff_t, size_bits.
  pose proof (Z.mod_pos_bound (z + 2 ^ (64 - 1)) (2 ^ 64) ltac:(lia)). lia.
Qed.

Lemma fits_ptrdiff_t_true (z : Z) : fits_ptrdiff_t z = true <-> in_ptrdiff_t z.
Proof. unfold fits_ptrdiff_t, in_ptrdiff_t. rewrite andb_true_iff. lia. Qed.

(** ** Slicing *)

(** C1: for every view and every offset, in either build configuration,
    [slice(offset, 0)] returns the empty (default-constructed) view and
    raises nothing: the [item_count == 0] test is part of the first [if],
    ahead of the debug-only bound checks. *)
Theorem slice2_zero_count (dbg : bool) (v : array_view) (offset : Z) :
  slice2 dbg v offset 0 = Ok array_view_default.
Proof.
  unfold slice2. rewrite Z.eqb_refl, orb_true_r. reflexivity.
Qed.

(** ** Checked element access *)

Lemma check_not_null_fails (v : array_view) :
  data v = nullptr \/ size v = 0 -> check_not_null v = Err view_null_or_empty.
Proof.
  unfold check_not_null, error_if, empty. intros [Hp | Hs].
  - rewrite Hp, ptr_eqb_refl. reflexivity.
  - rewrite Hs, orb_true_r. reflexivity.
Qed.

Lemma check_not_null_passes (v : array_view) :
  data v <> nullptr -> size v <> 0 -> check_not_null v = Ok ().
Proof.
  unfold check_not_null, error_if, empty. intros Hp Hs.
  apply ptr_eqb_false in Hp. apply Z.eqb_neq in Hs. rewrite Hp, Hs. reflexivity.
Qed.

Lemma at_null_or_empty {T : Type} (mem : gmap Z T) (v : array_view) (i : Z) :
  data v = nullptr \/ size v = 0 -> at_ mem v i = Err view_null_or_empty.
Proof.
  intros H. unfold at_. rewrite (check_not_null_fails v H). reflexivity.
Qed.

Lemma at_in_bounds {T : Type} (mem : gmap Z T) (v : array_view) (i : Z) :
  data v <> nullptr -> size v <> 0 -> i < size v ->
  at_ mem v i = load mem (ptr_add (data v) i).
Proof.
  intros Hp Hs Hi. unfold at_. rewrite (check_not_null_passes v Hp Hs).
  unfold error_if. destruct (Z.leb_spec (size v) i) as [Hle | _]; [lia |].
  reflexivity.
Qed.

(** C5: [at(index)] has no [#if ARRAY_VIEW_DEBUG_CHECKS] block (the model
    takes no build flag), and for every view, memory and index:
    it raises the null-or-empty error (kind NullAccess) when the pointer is
    null or the size is zero; otherwise it raises the out-of-bounds error
    (kind OutOfBounds) when [index >= size()]; otherwise it reads the
    element at [data() + index], and returns the value stored there. *)
Theorem at_always_checked {T : Type} (mem : gmap Z T) (v : array_view) (i : Z) :
  (data v = nullptr \/ size v = 0 ->
     at_ mem v i = Err view_null_or_empty /\ fails_with (at_ mem v i) NullAccess) /\
  (data v <> nullptr -> size v <> 0 -> size v <= i ->
     at_ mem v i = Err at_out_of_bounds /\ fails_with (at_ mem v i) OutOfBounds) /\
  (data v <> nullptr -> size v <> 0 -> i < size v ->
     at_ mem v i = load mem (ptr_add (data v) i)) /\
  (forall (base : Z) (x : T),
     data v = addr base -> size v <> 0 -> i < size v ->
     mem !! (base + i) = Some x ->
     at_ mem v i = Ok x).
Proof.
  repeat split.
  - apply at_null_or_empty; assumption.
  - exists view_null_or_empty. split; [apply at_null_or_empty; assumption | reflexivity].
  - unfold at_. rewrite (check_not_null_passes v) by assumption.
    unfold error_if. destruct (Z.leb_spec (size v) i); [reflexivity | lia].
  - exists at_out_of_bounds. split; [| reflexivity].
    unfold at_. rewrite (check_not_null_passes v) by assumption.
    unfold error_if. destruct (Z.leb_spec (size v) i); [reflexivity | lia].
  - apply at_in_bounds; assumption.
  - intros base x Hb Hs Hi Hx.
    rewrite at_in_bounds; [| congruence | assumption | assumption].
    rewrite Hb. simpl. rewrite Hx. reflexivity.
Qed.

Lemma at_always_checked_witness :
  at_ six_ints array_view_default 0 = Err view_null_or_empty /\
  at_ six_ints six_view 6 = Err at_out_of_bounds /\
  at_ six_ints six_view 2 = Ok 20.
Proof.
  split; [| split].
  - apply (at_always_checked six_ints array_view_default 0). left. reflexivity.
  - apply (at_always_checked six_ints six_view 6);
      [discriminate | discriminate | simpl; lia].
  - apply (proj2 (proj2 (proj2 (at_always_checked six_ints six_view 2))) 100 20);
      [reflexivity | discriminate | simpl; lia | reflexivity].
Defined.

(** ** Sub-views *)

(** The claim C8 as it is written fails on a view made from a null pointer
    and a nonzero count: the preconditions on offset and count hold, and
    [slice(0, 1)] returns the empty view, of size 0 and not 1. *)
Lemma slice2_null_pointer_view_counterexample :
  0 < size null_five /\ 0 + 1 <= size null_five /\
  slice2 true null_five 0 1 = Ok array_view_default /\
  slice2 false null_five 0 1 = Ok array_view_default /\
  size array_view_default <> 1.
Proof.
  split; [reflexivity |]. split; [discriminate |].
  split; [reflexivity |]. split; [reflexivity | discriminate].
Qed.

(** C8 (amended): for every view with a non-null pointer, in either build
    configuration, and offset [o] and count [c] with [o < size()] and
    [o + c <= size()], [slice(o, c)] returns a view of size [c] whose
    [at(i)] is [at(o + i)] of the original for every [i] in [0, c). *)
Theorem slice2_subview {T : Type} (dbg : bool) (mem : gmap Z T)
    (v : array_view) (o c : Z) :
  data v <> nullptr -> in_size_t (size v) ->
  0 <= o -> 0 <= c -> o < size v -> o + c <= size v ->
  exists s, slice2 dbg v o c = Ok s /\ size s = c /\
    forall i, 0 <= i < c -> at_ mem s i = at_ mem v (o + i).
Proof.
  intros Hp [_ Hmax] Ho Hc Hlt Hle.
  apply ptr_eqb_false in Hp as Hpb.
  assert (Hne : empty v = false) by (apply Z.eqb_neq; lia).
  destruct (Z.eqb_spec c 0) as [-> | Hc0].
  - exists array_view_default. unfold slice2. rewrite Z.eqb_refl, orb_true_r.
    repeat split. intros i Hi. lia.
  - assert (Hc0b : (c =? 0) = false) by (apply Z.eqb_neq; assumption).
    assert (Hchecks : debug_only dbg (
        error_if (c =? 0) slice_zero_size;;
        error_if (size v <=? o) slice2_offset_ge_size;;
        error_if (size v <? to_size_t (o + c)) slice_size_gt_total) = Ok ()).
    { destruct dbg; [| reflexivity]. simpl.
      rewrite to_size_t_id by (unfold in_size_t; lia). rewrite Hc0b.
      destruct (Z.leb_spec (size v) o); [lia |].
      destruct (Z.ltb_spec (size v) (o + c)); [lia |]. reflexivity. }
    unfold slice2. rewrite Hchecks, Hpb, Hne, Hc0b. simpl.
    eexists. split; [reflexivity |]. split; [reflexivity |].
    intros i Hi.
    rewrite !at_in_bounds; try assumption; simpl; try lia.
    + unfold data. destruct (m_pointer v); simpl; [reflexivity |].
      rewrite Z.add_assoc. reflexivity.
    + unfold data in Hp. destruct (m_pointer v); [contradiction | discriminate].
Qed.

Lemma slice2_subview_witness :
  exists s, slice2 true six_view 2 3 = Ok s /\ size s = 3 /\
    forall i, 0 <= i < 3 -> at_ six_ints s i = at_ six_ints six_view (2 + i).
Proof.
  apply (slice2_subview true six_ints six_view 2 3).
  - discriminate.
  - unfold in_size_t. vm_compute. split; discriminate.
  - lia.
  - lia.
  - simpl. lia.
  - simpl. lia.
Defined.

(** The concrete scenario of the specification: [slice(2, 3)] of the six
    integers has the contents {20, 30, 40}. *)
Example slice2_six_view :
  exists s, slice2 true six_view 2 3 = Ok s /\
    at_ six_ints s 0 = Ok 20 /\ at_ six_ints s 1 = Ok 30 /\ at_ six_ints s 2 = Ok 40.
Proof. eexists. repeat split. Qed.

(** ** Null and empty views *)

Lemma begin_end_null (this : Z) (v : array_view) :
  data v = nullptr -> begin this v = iterator_default /\ end_ this v = iterator_default.
Proof.
  intros Hp. unfold begin, end_, make_iterator.
  rewrite Hp, ptr_eqb_refl. split; reflexivity.
Qed.

Lemma begin_end_bound (this : Z) (v : array_view) :
  data v <> nullptr ->
  begin this v = {| m_parent_array := addr this; m_current_index := 0 |} /\
  end_ this v =
    {| m_parent_array := addr this; m_current_index := to_ptrdiff_t (size v) |}.
Proof.
  intros Hp. apply ptr_eqb_false in Hp. unfold begin, end_, make_iterator.
  rewrite Hp. split; reflexivity.
Qed.

Lemma iter_eq_same_parent (dbg : bool) (it other : array_iterator_base) :
  m_parent_array it = m_parent_array other ->
  iter_eq dbg it other = Ok (m_current_index it =? m_current_index other).
Proof.
  intros Hp. unfold iter_eq, check_same_parent.
  rewrite Hp, ptr_eqb_refl. destruct dbg; reflexivity.
Qed.

(** The claim C9 as it is written fails on the view that the
    pointer-and-count constructor makes from a null pointer and the count
    5: its pointer is absent, it is a null view, and its size is 5. *)
Lemma null_view_with_count_counterexample :
  null_five = array_view_of nullptr 5 /\
  data null_five = nullptr /\ is_null null_five = true /\
  size null_five = 5 /\ size null_five <> 0.
Proof. repeat split. discriminate. Qed.

(** C9 (amended): every empty view has [size() == 0]; every null view and
    every empty view has [begin() == end()] in either build configuration,
    and [at] on it raises the null-or-empty error (kind NullAccess).  The
    default constructor and [reset()] give the view with an absent pointer
    and count 0, while the pointer-and-count constructor stores both of its
    arguments as they are, so the size of a null view is the count it was
    given. *)
Theorem null_or_empty_view {T : Type} (dbg : bool) (mem : gmap Z T)
    (this : Z) (v : array_view) :
  (empty v = true <-> size v = 0) /\
  (is_null v = true \/ empty v = true ->
     iter_eq dbg (begin this v) (end_ this v) = Ok true) /\
  (is_null v = true \/ empty v = true ->
     forall i, at_ mem v i = Err view_null_or_empty /\
               fails_with (at_ mem v i) NullAccess) /\
  (data array_view_default = nullptr /\ size array_view_default = 0) /\
  (data (reset v) = nullptr /\ size (reset v) = 0) /\
  (forall (p : pointer) (n : Z),
     data (array_view_of p n) = p /\ size (array_view_of p n) = n).
Proof.
  assert (Hcases : is_null v = true \/ empty v = true ->
                   data v = nullptr \/ size v = 0).
  { intros [Hn | He]; [left; apply ptr_eqb_true, Hn | right; apply Z.eqb_eq, He]. }
  split; [apply Z.eqb_eq |].
  split; [| split; [| repeat split]].
  - intros H. destruct (decide (data v = nullptr)) as [Hp | Hp].
    + destruct (begin_end_null this v Hp) as [-> ->].
      rewrite iter_eq_same_parent by reflexivity. reflexivity.
    + destruct (begin_end_bound this v Hp) as [-> ->].
      rewrite iter_eq_same_parent by reflexivity. simpl.
      destruct (Hcases H) as [Hp' | Hs]; [contradiction |].
      rewrite Hs. reflexivity.
  - intros H i. split.
    + apply at_null_or_empty, Hcases, H.
    + exists view_null_or_empty. split; [| reflexivity].
      apply at_null_or_empty, Hcases, H.
Qed.

Lemma null_or_empty_view_witness :
  iter_eq true (begin 2000 array_view_default) (end_ 2000 array_view_default) = Ok true /\
  at_ six_ints (array_view_of (addr 100) 0) 0 = Err view_null_or_empty.
Proof.
  split.
  - apply (null_or_empty_view (T := Z) true six_ints 2000 array_view_default).
    left. reflexivity.
  - apply (null_or_empty_view true six_ints 2000 (array_view_of (addr 100) 0)).
    right. reflexivity.
Defined.

(** ** Iterator arithmetic *)

(** The claim C7 as it is written fails on the null view in a build with
    debug checks: its [begin()] is the null iterator, and adding any
    displacement to it, even 0, raises the invalid-iterator error. *)
Lemma iter_plus_null_view_counterexample :
  begin 2000 array_view_default = iterator_default /\
  iter_plus true (begin 2000 array_view_default) 0 = Err incrementing_invalid_iterator /\
  (it ← iter_plus true (begin 2000 array_view_default) 0;
   iter_diff true it (begin 2000 array_view_default)) <> Ok 0 /\
  (it ← iter_plus true (begin 2000 array_view_default)
          (to_ptrdiff_t (size array_view_default));
   iter_eq true it (end_ 2000 array_view_default)) <> Ok true.
Proof. repeat split; discriminate. Qed.

(** C7 (amended): for every view with a non-null pointer, in either build
    configuration, and every [k] of [difference_type],
    [(begin() + k) - begin() == k] and [begin() + size() == end()].  On a
    view with a null pointer, a build with debug checks raises the
    invalid-iterator error at [begin() + k]. *)
Theorem iterator_laws (dbg : bool) (this : Z) (v : array_view) (k : Z) :
  (data v <> nullptr -> in_ptrdiff_t k ->
     (it ← iter_plus dbg (begin this v) k; iter_diff dbg it (begin this v)) = Ok k /\
     (it ← iter_plus dbg (begin this v) (to_ptrdiff_t (size v));
      iter_eq dbg it (end_ this v)) = Ok true) /\
  (data v = nullptr ->
     iter_plus true (begin this v) k = Err incrementing_invalid_iterator).
Proof.
  split.
  - intros Hp Hk. destruct (begin_end_bound this v Hp) as [-> ->].
    assert (Hplus : forall d, in_ptrdiff_t d ->
              iter_plus dbg {| m_parent_array := addr this; m_current_index := 0 |} d =
              Ok {| m_parent_array := addr this; m_current_index := d |}).
    { intros d Hd. unfold iter_plus, increment.
      cbn [m_current_index m_parent_array]. rewrite Z.add_0_l.
      apply fits_ptrdiff_t_true in Hd. rewrite Hd.
      destruct dbg; reflexivity. }
    rewrite (Hplus k Hk), (Hplus _ (to_ptrdiff_t_range (size v))). split.
    + cbn [mbind result_bind]. unfold iter_diff, check_same_parent.
      cbn [m_current_index m_parent_array].
      rewrite ptr_eqb_refl, Z.sub_0_r.
      apply fits_ptrdiff_t_true in Hk. rewrite Hk.
      destruct dbg; reflexivity.
    + cbn [mbind result_bind]. rewrite iter_eq_same_parent by reflexivity.
      cbn [m_current_index]. rewrite Z.eqb_refl. reflexivity.
  - intros Hp. destruct (begin_end_null this v Hp) as [-> _]. reflexivity.
Qed.

Lemma iterator_laws_witness :
  (it ← iter_plus true (begin 2000 six_view) 4;
   iter_diff true it (begin 2000 six_view)) = Ok 4 /\
  (it ← iter_plus true (begin 2000 six_view) (to_ptrdiff_t (size six_view));
   iter_eq true it (end_ 2000 six_view)) = Ok true.
Proof.
  apply (iterator_laws true 2000 six_view 4).
  - discriminate.
  - unfold in_ptrdiff_t. vm_compute. split; discriminate.
Defined.

(** ** Iterators of different views *)

(** The claim C6 as it is written fails for [swap]: with debug checks or
    without, swapping two iterators of different view objects exchanges
    them and raises nothing; its body has no parent check. *)
Lemma iter_swap_cross_view_counterexample :
  m_parent_array iter_of_one <> m_parent_array iter_of_two /\
  iter_swap iter_of_one iter_of_two = (iter_of_two, iter_of_one).
Proof. split; [discriminate | reflexivity]. Qed.

Lemma check_same_parent_fails (it other : array_iterator_base) :
  m_parent_array it <> m_parent_array other ->
  check_same_parent it other = Err iterators_different_objects.
Proof.
  intros H. apply ptr_eqb_false in H. unfold check_same_parent. rewrite H.
  reflexivity.
Qed.

(** C6 (amended): in a build with debug checks, each of the six comparisons
    and the difference of two iterators whose parents differ raises the
    different-objects error (kind CrossViewOperation).  [swap] has no such
    check in any build: it exchanges parent and index of the two iterators
    and never fails. *)
Theorem cross_view_iterators (it other : array_iterator_base) :
  m_parent_array it <> m_parent_array other ->
  iter_eq true it other = Err iterators_different_objects /\
  iter_ne true it other = Err iterators_different_objects /\
  iter_lt true it other = Err iterators_different_objects /\
  iter_gt true it other = Err iterators_different_objects /\
  iter_le true it other = Err iterators_different_objects /\
  iter_ge true it other = Err iterators_different_objects /\
  iter_diff true it other = Err iterators_different_objects /\
  kind iterators_different_objects = CrossViewOperation /\
  iter_swap it other = (other, it).
Proof.
  intros H. pose proof (check_same_parent_fails it other H) as Hc.
  unfold iter_ne, iter_le, iter_ge, iter_eq, iter_lt, iter_gt, iter_diff, debug_only.
  rewrite Hc. repeat split.
  destruct it, other. reflexivity.
Qed.

Lemma cross_view_iterators_witness :
  iter_eq true iter_of_one iter_of_two = Err iterators_different_objects /\
  iter_diff true iter_of_one iter_of_two = Err iterators_different_objects.
Proof.
  pose proof (cross_view_iterators iter_of_one iter_of_two ltac:(discriminate)) as H.
  split; apply H.
Defined.

(** ** Dereferencing an iterator *)

(** The claim C2 as it is written fails in a build without debug checks:
    an iterator at index 5 of a view of size 2 is not dereferenceable, yet
    [operator*] and [operator->] raise nothing and read the element three
    places past the end of the view; on the null iterator they raise
    nothing either and dereference the null parent pointer. *)
Lemma iter_star_unchecked_counterexample :
  is_dereferenceable two_objs past_two = Ok false /\
  iter_star false two_objs six_ints past_two = Ok 50 /\
  iter_arrow false two_objs six_ints past_two = Ok 50 /\
  iter_star false two_objs six_ints iterator_default = UB.
Proof. repeat split. Qed.

(** What [is_dereferenceable] answers on an iterator whose parent is a live
    view object. *)
Lemma is_dereferenceable_bound (objs : gmap Z array_view) (it : array_iterator_base)
    (this : Z) (v : array_view) :
  m_parent_array it = addr this -> objs !! this = Some v ->
  in_ptrdiff_t (m_current_index it) ->
  is_dereferenceable objs it =
  Ok ((0 <=? m_current_index it) && (m_current_index it <? size v)).
Proof.
  intros Hp Hobj [Hlo Hhi]. unfold is_dereferenceable, deref_parent.
  rewrite Hp, Hobj. change (ptr_eqb (addr this) nullptr) with false. cbn match.
  destruct (Z.ltb_spec (m_current_index it) 0) as [Hneg | Hpos].
  - destruct (Z.leb_spec 0 (m_current_index it)); [lia | reflexivity].
  - destruct (Z.leb_spec 0 (m_current_index it)); [| lia].
    rewrite to_size_t_id
      by (unfold in_size_t, SIZE_MAX, PTRDIFF_MAX, size_bits in *; lia).
    reflexivity.
Qed.

(** C2 (amended): dereference and arrow access validate the iterator only
    in a build with debug checks; there, an iterator without a parent, or
    with an index outside [0, parent.size()), raises the
    not-dereferenceable error, and one with an index inside gives the
    parent's [operator[]] at the index.  In a build without debug checks
    nothing is validated: the access is the read at [data() + index] of the
    parent, whatever the index. *)
Theorem iterator_dereference_checks {T : Type} (objs : gmap Z array_view)
    (mem : gmap Z T) (it : array_iterator_base) :
  (m_parent_array it = nullptr ->
     iter_star true objs mem it = Err iterator_star_not_dereferenceable /\
     iter_arrow true objs mem it = Err iterator_arrow_not_dereferenceable) /\
  (forall this v,
     m_parent_array it = addr this -> objs !! this = Some v ->
     in_ptrdiff_t (m_current_index it) ->
     m_current_index it < 0 \/ size v <= m_current_index it ->
     iter_star true objs mem it = Err iterator_star_not_dereferenceable /\
     iter_arrow true objs mem it = Err iterator_arrow_not_dereferenceable) /\
  (forall this v,
     m_parent_array it = addr this -> objs !! this = Some v ->
     in_ptrdiff_t (m_current_index it) ->
     0 <= m_current_index it < size v ->
     iter_star true objs mem it = subscript true mem v (m_current_index it) /\
     iter_arrow true objs mem it = subscript true mem v (m_current_index it)) /\
  (is_dereferenceable objs it = Ok false ->
     iter_star true objs mem it = Err iterator_star_not_dereferenceable /\
     iter_arrow true objs mem it = Err iterator_arrow_not_dereferenceable) /\
  (is_dereferenceable objs it = Ok true ->
     forall v, deref_parent objs (m_parent_array it) = Ok v ->
     iter_star true objs mem it = subscript true mem v (to_size_t (m_current_index it)) /\
     iter_arrow true objs mem it = subscript true mem v (to_size_t (m_current_index it))) /\
  (forall v, deref_parent objs (m_parent_array it) = Ok v ->
     iter_star false objs mem it =
       load mem (ptr_add (data v) (to_size_t (m_current_index it))) /\
     iter_arrow false objs mem it =
       load mem (ptr_add (data v) (to_size_t (m_current_index it)))).
Proof.
  assert (Hfalse : is_dereferenceable objs it = Ok false ->
     iter_star true objs mem it = Err iterator_star_not_dereferenceable /\
     iter_arrow true objs mem it = Err iterator_arrow_not_dereferenceable).
  { unfold iter_star, iter_arrow, not_dereferenceable, debug_only.
    intros ->. split; reflexivity. }
  assert (Htrue : is_dereferenceable objs it = Ok true ->
     forall v, deref_parent objs (m_parent_array it) = Ok v ->
     iter_star true objs mem it = subscript true mem v (to_size_t (m_current_index it)) /\
     iter_arrow true objs mem it = subscript true mem v (to_size_t (m_current_index it))).
  { unfold iter_star, iter_arrow, not_dereferenceable, debug_only.
    intros -> v ->. split; reflexivity. }
  split; [| split; [| split; [| split; [| split]]]].
  - intros Hp. apply Hfalse. unfold is_dereferenceable. rewrite Hp. reflexivity.
  - intros this v Hp Hobj Hidx Hout. apply Hfalse.
    rewrite (is_dereferenceable_bound objs it this v Hp Hobj Hidx).
    f_equal. destruct Hout as [Hneg | Hge].
    + destruct (Z.leb_spec 0 (m_current_index it)); [lia | reflexivity].
    + destruct (Z.ltb_spec (m_current_index it) (size v)); [lia |].
      apply andb_false_r.
  - intros this v Hp Hobj Hidx Hin.
    assert (Hwrap : to_size_t (m_current_index it) = m_current_index it).
    { apply to_size_t_id. destruct Hidx as [_ Hhi].
      unfold in_size_t, SIZE_MAX, PTRDIFF_MAX, size_bits in *. lia. }
    assert (Hderef : is_dereferenceable objs it = Ok true).
    { rewrite (is_dereferenceable_bound objs it this v Hp Hobj Hidx).
      f_equal. destruct (Z.leb_spec 0 (m_current_index it)); [| lia].
      destruct (Z.ltb_spec (m_current_index it) (size v)); [reflexivity | lia]. }
    assert (Hparent : deref_parent objs (m_parent_array it) = Ok v).
    { unfold deref_parent. rewrite Hp, Hobj. reflexivity. }
    destruct (Htrue Hderef v Hparent) as [Hstar Harrow].
    rewrite Hwrap in Hstar, Harrow. split; assumption.
  - exact Hfalse.
  - exact Htrue.
  - unfold iter_star, iter_arrow, debug_only. intros v ->. split; reflexivity.
Qed.

Lemma iterator_dereference_checks_witness :
  iter_star true two_objs six_ints iterator_default =
    Err iterator_star_not_dereferenceable /\
  iter_star true two_objs six_ints past_two = Err iterator_star_not_dereferenceable /\
  iter_arrow true two_objs six_ints past_two = Err iterator_arrow_not_dereferenceable /\
  iter_star true two_objs six_ints (begin 2000 two_view) =
    subscript true six_ints two_view (m_current_index (begin 2000 two_view)) /\
  iter_star false two_objs six_ints past_two =
    load six_ints (ptr_add (data two_view) (to_size_t (m_current_index past_two))).
Proof.
  pose proof (iterator_dereference_checks two_objs six_ints iterator_default)
    as [Hnull _].
  pose proof (iterator_dereference_checks two_objs six_ints past_two)
    as [_ [Hout [_ [_ [_ Hunchecked]]]]].
  pose proof (iterator_dereference_checks two_objs six_ints (begin 2000 two_view))
    as [_ [_ [Hin _]]].
  split; [| split; [| split; [| split]]].
  - apply Hnull. reflexivity.
  - apply (Hout 2000 two_view); [reflexivity | reflexivity | |].
    + vm_compute. split; discriminate.
    + right. vm_compute. discriminate.
  - apply (Hout 2000 two_view); [reflexivity | reflexivity | |].
    + vm_compute. split; discriminate.
    + right. vm_compute. discriminate.
  - apply (Hin 2000 two_view); [reflexivity | reflexivity | |].
    + vm_compute. split; discriminate.
    + vm_compute. split; [discriminate | reflexivity].
  - apply (Hunchecked two_view). reflexivity.
Defined.

(** ** Strided views *)

(** The claim C3 as it is written fails in a build without debug checks:
    on a strided view of zero bytes, whose [size()] is 0, [front()] raises
    nothing and reads the field of the structure at the base address; on
    the null strided view it raises nothing and reads through the null
    pointer. *)
Lemma strided_front_unchecked_counterexample :
  Strided.size 8 zero_bytes = 0 /\
  Strided.front 4 8 false four_structs zero_bytes = Ok 11 /\
  Strided.front 4 8 false four_structs Strided.strided_default = UB.
Proof. repeat split. Qed.

(** C3 (amended): [at] of a strided view validates in every build
    configuration: it raises the null-pointer error (kind NullAccess) on a
    null view and the out-of-bounds error (kind OutOfBounds) when
    [index >= size()], with [size() = size_bytes() / stride_bytes()].
    [front()] and [back()] go through [operator[]] and validate in the same
    way only in a build with debug checks; without debug checks they, like
    [operator[]] and [get_item_raw_ptr], validate nothing. *)
Theorem strided_front_back_checks {T : Type} (OffsetBytes StrideBytes : Z)
    (mem : gmap Z T) (sv : Strided.strided_array_view) :
  0 < StrideBytes ->
  (Strided.data sv = nullptr -> forall i,
     Strided.at_ OffsetBytes StrideBytes mem sv i = Err strided_null_pointer) /\
  (Strided.data sv <> nullptr -> forall i, Strided.size StrideBytes sv <= i ->
     Strided.at_ OffsetBytes StrideBytes mem sv i = Err strided_at_out_of_bounds) /\
  (Strided.data sv = nullptr ->
     Strided.front OffsetBytes StrideBytes true mem sv = Err strided_null_pointer /\
     Strided.back OffsetBytes StrideBytes true mem sv = Err strided_null_pointer) /\
  (Strided.data sv <> nullptr -> Strided.size StrideBytes sv = 0 ->
     Strided.front OffsetBytes StrideBytes true mem sv = Err strided_index_out_of_bounds /\
     Strided.back OffsetBytes StrideBytes true mem sv = Err strided_index_out_of_bounds) /\
  (Strided.front OffsetBytes StrideBytes false mem sv =
     load mem (Strided.get_item_raw_ptr OffsetBytes StrideBytes sv 0) /\
   Strided.back OffsetBytes StrideBytes false mem sv =
     load mem (Strided.get_item_raw_ptr OffsetBytes StrideBytes sv
                 (to_size_t (Strided.size StrideBytes sv - 1)))) /\
  (kind strided_null_pointer = NullAccess /\
   kind strided_at_out_of_bounds = OutOfBounds /\
   kind strided_index_out_of_bounds = OutOfBounds).
Proof.
  intros _. unfold Strided.front, Strided.back, Strided.subscript, Strided.at_.
  split; [| split; [| split; [| split; [| split]]]].
  - intros -> i. reflexivity.
  - intros Hp i Hi. apply ptr_eqb_false in Hp. rewrite Hp.
    unfold error_if. destruct (Z.leb_spec (Strided.size StrideBytes sv) i); [reflexivity | lia].
  - intros ->. split; reflexivity.
  - intros Hp Hs. apply ptr_eqb_false in Hp. rewrite Hp, Hs. split; reflexivity.
  - split; reflexivity.
  - repeat split.
Qed.

Lemma strided_front_back_checks_witness :
  Strided.at_ 4 8 four_structs four_y 4 = Err strided_at_out_of_bounds /\
  Strided.front 4 8 true four_structs Strided.strided_default = Err strided_null_pointer /\
  Strided.back 4 8 true four_structs zero_bytes = Err strided_index_out_of_bounds.
Proof.
  split; [| split].
  - apply (strided_front_back_checks 4 8 four_structs four_y);
      [lia | discriminate | vm_compute; discriminate].
  - apply (strided_front_back_checks 4 8 four_structs Strided.strided_default);
      [lia | reflexivity].
  - apply (strided_front_back_checks 4 8 four_structs zero_bytes);
      [lia | discriminate | reflexivity].
Defined.

(** The concrete scenario of the specification: the view of field y of
    four structures has size 4, and element [i] is the y of structure [i]. *)
Example strided_four_y :
  Strided.size 8 four_y = 4 /\
  Strided.at_ 4 8 four_structs four_y 0 = Ok 11 /\
  Strided.at_ 4 8 four_structs four_y 3 = Ok 14 /\
  Strided.front 4 8 true four_structs four_y = Ok 11 /\
  Strided.back 4 8 true four_structs four_y = Ok 14.
Proof. repeat split. Qed.

(** C10: for a strided view whose byte size is nonzero and strictly less
    than its stride, [empty()] is false while [size()] is 0: [empty()]
    tests the byte count, [size()] is the integer quotient
    [size_bytes() / stride_bytes()]. *)
Theorem strided_empty_not_size_zero (StrideBytes : Z) (sv : Strided.strided_array_view) :
  0 < Strided.size_bytes sv < StrideBytes ->
  Strided.empty sv = false /\ Strided.size StrideBytes sv = 0 /\
  Strided.empty sv <> (Strided.size StrideBytes sv =? 0).
Proof.
  intros H. unfold Strided.empty, Strided.size, Strided.stride_bytes.
  assert (Hq : Strided.size_bytes sv / StrideBytes = 0) by (apply Z.div_small; lia).
  assert (He : (Strided.size_bytes sv =? 0) = false) by (apply Z.eqb_neq; lia).
  rewrite Hq, He. repeat split. discriminate.
Qed.

Lemma strided_empty_not_size_zero_witness :
  Strided.empty short_view = false /\ Strided.size 8 short_view = 0 /\
  Strided.empty short_view <> (Strided.size 8 short_view =? 0).
Proof.
  apply (strided_empty_not_size_zero 8 short_view). vm_compute. split; reflexivity.
Defined.

(** ** Equality of views *)

Section view_equality.
Context {T : Type} (T_eq : T -> T -> bool).
Implicit Types (mem : gmap Z T) (objs : gmap Z array_view) (v a b : array_view).

Lemma backed_by_not_null mem v : backed_by mem v -> 0 < size v -> data v <> nullptr.
Proof.
  intros [_ Hread] Hpos Hnull. destruct (Hread 0 ltac:(lia)) as [x Hx].
  rewrite Hnull in Hx. discriminate.
Qed.

Lemma subscript_in_range (dbg : bool) mem v (i : Z) :
  data v <> nullptr -> 0 <= i < size v ->
  subscript dbg mem v i = load mem (ptr_add (data v) i).
Proof.
  intros Hp Hi. unfold subscript. destruct dbg; [| reflexivity].
  cbn [debug_only]. rewrite check_not_null_passes by (assumption || lia).
  unfold error_if. destruct (Z.leb_spec (size v) i); [lia | reflexivity].
Qed.

Lemma iter_star_in_range (dbg : bool) objs mem (this : Z) v (i : Z) :
  objs !! this = Some v -> data v <> nullptr ->
  0 <= i < size v -> size v <= PTRDIFF_MAX ->
  iter_star dbg objs mem {| m_parent_array := addr this; m_current_index := i |} =
  load mem (ptr_add (data v) i).
Proof.
  intros Hobj Hp Hi Hmax.
  assert (Hwrap : to_size_t i = i).
  { apply to_size_t_id. unfold in_size_t, SIZE_MAX, PTRDIFF_MAX, size_bits in *. lia. }
  assert (Hneg : (i <? 0) = false) by (apply Z.ltb_ge; lia).
  assert (Hin : (i <? size v) = true) by (apply Z.ltb_lt; lia).
  assert (Hderef : is_dereferenceable objs
            {| m_parent_array := addr this; m_current_index := i |} = Ok true).
  { unfold is_dereferenceable, deref_parent. cbn [m_parent_array m_current_index].
    rewrite Hobj, Hwrap, Hneg. cbn. rewrite Hin. reflexivity. }
  unfold iter_star, not_dereferenceable. rewrite Hderef.
  unfold deref_parent. cbn [m_parent_array m_current_index].
  rewrite Hobj, Hwrap.
  destruct dbg; cbn [debug_only error_if negb mbind result_bind];
    apply subscript_in_range; assumption.
Qed.

Lemma iter_incr_bound (dbg : bool) (this i : Z) :
  PTRDIFF_MIN <= i < PTRDIFF_MAX ->
  iter_incr dbg {| m_parent_array := addr this; m_current_index := i |} =
  Ok {| m_parent_array := addr this; m_current_index := i + 1 |}.
Proof.
  intros Hi. unfold iter_incr, increment. cbn [m_parent_array m_current_index].
  assert (Hfits : fits_ptrdiff_t (i + 1) = true).
  { apply fits_ptrdiff_t_true. unfold in_ptrdiff_t. lia. }
  rewrite Hfits. destruct dbg; reflexivity.
Qed.

Lemma iter_ne_same_parent (dbg : bool) (p : pointer) (i n : Z) :
  iter_ne dbg {| m_parent_array := p; m_current_index := i |}
              {| m_parent_array := p; m_current_index := n |} = Ok (negb (i =? n)).
Proof.
  unfold iter_ne. rewrite iter_eq_same_parent by reflexivity. reflexivity.
Qed.

(** A range that is already at its end compares equal to anything. *)
Lemma std_equal_empty_range (fuel : nat) (dbg : bool) objs mem
    (it first2 : array_iterator_base) :
  std_equal T_eq (S fuel) dbg objs mem it it first2 = Some (Ok true).
Proof.
  destruct it as [p i]. cbn [std_equal].
  rewrite iter_ne_same_parent, Z.eqb_refl. reflexivity.
Qed.

(** The loop of [std::equal] over two views of the same size that are
    backed by memory, from index [i] on: it ends within [size - i + 1]
    turns, raises nothing, and answers whether the remaining elements are
    pairwise equal. *)
Lemma std_equal_loop (dbg : bool) objs mem (this other : Z) a b :
  objs !! this = Some a -> objs !! other = Some b ->
  size a = size b -> backed_by mem a -> backed_by mem b ->
  forall (k : nat) (i : Z) (fuel : nat),
    0 <= i -> i + Z.of_nat k = size a -> (k < fuel)%nat ->
    exists r,
      std_equal T_eq fuel dbg objs mem
        {| m_parent_array := addr this; m_current_index := i |}
        {| m_parent_array := addr this; m_current_index := size a |}
        {| m_parent_array := addr other; m_current_index := i |} = Some (Ok r) /\
      (r = true <->
       forall j, i <= j < size a ->
         exists x y, load mem (ptr_add (data a) j) = Ok x /\
                     load mem (ptr_add (data b) j) = Ok y /\
                     T_eq x y = true).
Proof.
  intros Ha Hb Hsz Hba Hbb k.
  induction k as [| k IH]; intros i fuel Hi Hk Hfuel.
  - destruct fuel as [| fuel]; [lia |].
    assert (i = size a) as -> by lia.
    rewrite std_equal_empty_range. exists true. split; [reflexivity |].
    split; [intros _ j Hj; lia | reflexivity].
  - destruct fuel as [| fuel]; [lia |].
    assert (Hlt : 0 <= i < size a) by lia.
    pose proof (backed_by_not_null mem a Hba ltac:(lia)) as Hpa.
    pose proof (backed_by_not_null mem b Hbb ltac:(lia)) as Hpb.
    destruct Hba as [Hra Hreada]. destruct Hbb as [Hrb Hreadb].
    destruct (Hreada i Hlt) as [x Hx]. destruct (Hreadb i ltac:(lia)) as [y Hy].
    cbn [std_equal]. rewrite iter_ne_same_parent.
    destruct (Z.eqb_spec i (size a)) as [Heq | _]; [lia |]. cbn [negb].
    unfold equal_step.
    rewrite (iter_star_in_range dbg objs mem this a i) by (assumption || lia).
    rewrite (iter_star_in_range dbg objs mem other b i) by (assumption || lia).
    rewrite Hx, Hy. cbn [mbind result_bind].
    destruct (T_eq x y) eqn:Hxy; cbn [negb].
    + rewrite !iter_incr_bound
        by (unfold PTRDIFF_MIN, PTRDIFF_MAX, size_bits in *; lia).
      cbn [mbind result_bind].
      destruct (IH (i + 1) fuel ltac:(lia) ltac:(lia) ltac:(lia)) as [r [Hr Hiff]].
      exists r. split; [exact Hr |].
      rewrite Hiff. split.
      * intros Hrest j Hj. destruct (Z.eq_dec j i) as [-> | Hne].
        -- exists x, y. repeat split; assumption.
        -- apply Hrest. lia.
      * intros Hall j Hj. apply Hall. lia.
    + exists false. split; [reflexivity |].
      split; [discriminate |].
      intros Hall. destruct (Hall i ltac:(lia)) as [x' [y' [Hx' [Hy' Hxy']]]].
      rewrite Hx in Hx'. rewrite Hy in Hy'.
      injection Hx' as <-. injection Hy' as <-. congruence.
Qed.

End view_equality.

(** The claim C4 as it is written fails on a view made from a null pointer
    and a count, compared with a view of another pointer and the same
    count.  With the null view on the left [operator==] answers true
    although no element of the null view can be read, let alone compare
    equal; with the null view on the right it gives no answer: a build with
    debug checks raises the not-dereferenceable error, a build without them
    dereferences a null parent pointer. *)
Lemma view_eq_null_pointer_view_counterexample :
  data null_two <> data (array_view_of (addr 20) 2) /\
  size null_two = size (array_view_of (addr 20) 2) /\
  view_eq Z.eqb 3 true null_pair_objs pair_ints 1 2 = Some (Ok true) /\
  view_eq Z.eqb 3 false null_pair_objs pair_ints 1 2 = Some (Ok true) /\
  ~ pairwise_equal Z.eqb pair_ints null_two (array_view_of (addr 20) 2) /\
  view_eq Z.eqb 3 true null_pair_objs pair_ints 2 1 =
    Some (Err iterator_star_not_dereferenceable) /\
  view_eq Z.eqb 3 false null_pair_objs pair_ints 2 1 = Some UB.
Proof.
  split; [discriminate |]. split; [reflexivity |].
  split; [reflexivity |]. split; [reflexivity |].
  split; [| split; reflexivity].
  intros Hall. destruct (Hall 0 ltac:(cbn; lia)) as [x [y [Hx _]]].
  discriminate.
Qed.

(** C4 (amended): for two view objects over the same element type, in
    either build configuration: when their pointers are equal,
    [operator==] answers true whatever the two sizes are (and needs no turn
    of the loop); when the pointers differ and both views refer to live
    buffers, [operator==] ends, raises nothing, and answers true exactly
    when the sizes are equal and every element compares equal pairwise. *)
Theorem view_eq_spec {T : Type} (T_eq : T -> T -> bool) (fuel : nat) (dbg : bool)
    (objs : gmap Z array_view) (mem : gmap Z T) (this other : Z)
    (a b : array_view) :
  objs !! this = Some a -> objs !! other = Some b ->
  (data a = data b ->
     view_eq T_eq fuel dbg objs mem this other = Some (Ok true)) /\
  (data a <> data b -> backed_by mem a -> backed_by mem b ->
   (Z.to_nat (size a) < fuel)%nat ->
     exists r, view_eq T_eq fuel dbg objs mem this other = Some (Ok r) /\
       (r = true <-> size a = size b /\ pairwise_equal T_eq mem a b)).
Proof.
  intros Ha Hb. unfold view_eq. rewrite Ha, Hb. split.
  - intros Heq. apply ptr_eqb_true in Heq. rewrite Heq. reflexivity.
  - intros Hne Hba Hbb Hfuel. apply ptr_eqb_false in Hne as Hneb. rewrite Hneb.
    destruct (Z.eqb_spec (size a) (size b)) as [Hsz | Hsz]; cbn [negb].
    + destruct fuel as [| fuel]; [lia |].
      destruct (Z.eq_dec (size a) 0) as [Hzero | Hpos].
      * (* both ranges are empty: begin() and end() are the same iterator *)
        assert (Hsame : end_ this a = begin this a).
        { unfold end_, begin. rewrite Hzero. reflexivity. }
        rewrite Hsame, std_equal_empty_range.
        exists true. split; [reflexivity |].
        split; [| reflexivity]. intros _. split; [assumption |].
        intros i Hi. lia.
      * assert (Hsa : 0 < size a) by (destruct Hba as [? _]; lia).
        pose proof (backed_by_not_null mem a Hba Hsa) as Hpa.
        pose proof (backed_by_not_null mem b Hbb ltac:(lia)) as Hpb.
        destruct (begin_end_bound this a Hpa) as [-> ->].
        destruct (begin_end_bound other b Hpb) as [-> _].
        rewrite to_ptrdiff_t_id
          by (destruct Hba as [? _];
              unfold in_ptrdiff_t, PTRDIFF_MIN, PTRDIFF_MAX, size_bits in *; lia).
        destruct (std_equal_loop T_eq dbg objs mem this other a b Ha Hb Hsz Hba Hbb
                    (Z.to_nat (size a)) 0 (S fuel) ltac:(lia) ltac:(lia) Hfuel)
          as [r [Hr Hiff]].
        exists r. split; [exact Hr |].
        rewrite Hiff. unfold pairwise_equal. split.
        -- intros Hall. split; [assumption | exact Hall].
        -- intros [_ Hall]. exact Hall.
    + exists false. split; [reflexivity |].
      split; [discriminate |]. intros [Hsz' _]. contradiction.
Qed.

Lemma view_eq_spec_witness :
  view_eq Z.eqb 0 true pair_objs pair_ints 1 3 = Some (Ok true) /\
  exists r, view_eq Z.eqb 3 true pair_objs pair_ints 1 2 = Some (Ok r) /\
    (r = true <->
     size (array_view_of (addr 10) 2) = size (array_view_of (addr 20) 2) /\
     pairwise_equal Z.eqb pair_ints (array_view_of (addr 10) 2)
       (array_view_of (addr 20) 2)).
Proof.
  split.
  - apply (view_eq_spec Z.eqb 0 true pair_objs pair_ints 1 3
             (array_view_of (addr 10) 2) (array_view_of (addr 10) 1));
      reflexivity.
  - apply (view_eq_spec Z.eqb 3 true pair_objs pair_ints 1 2
             (array_view_of (addr 10) 2) (array_view_of (addr 20) 2)).
    + reflexivity.
    + reflexivity.
    + discriminate.
    + split; [vm_compute; split; discriminate |].
      intros i Hi. cbn in Hi.
      assert (i = 0 \/ i = 1) as [-> | ->] by lia; eexists; reflexivity.
    + split; [vm_compute; split; discriminate |].
      intros i Hi. cbn in Hi.
      assert (i = 0 \/ i = 1) as [-> | ->] by lia; eexists; reflexivity.
    + cbn. lia.
Defined.

(** The concrete scenario of the specification and the pointer-identity rule
    on the fixtures: a view equals itself; two views of different arrays
    with equal contents are equal; two views of one address with sizes 2
    and 1 are equal; a slice of three of the six integers differs from the
    whole. *)
Example view_eq_examples :
  view_eq Z.eqb 3 true pair_objs pair_ints 1 1 = Some (Ok true) /\
  view_eq Z.eqb 3 true pair_objs pair_ints 1 2 = Some (Ok true) /\
  view_eq Z.eqb 3 false pair_objs pair_ints 1 2 = Some (Ok true) /\
  view_eq Z.eqb 3 true pair_objs pair_ints 1 3 = Some (Ok true) /\
  view_ne Z.eqb 7 true
    (<[1 := six_view]> (<[2 := array_view_of (addr 102) 3]> ∅)) six_ints 2 1 =
    Some (Ok true).
Proof. repeat split. Qed.

(** * Further properties of the code *)

(** ** Slicing, continued *)

Lemma ptr_add_add (p : pointer) (j k : Z) :
  ptr_add (ptr_add p j) k = ptr_add p (j + k).
Proof. destruct p; simpl; [reflexivity |]. rewrite Z.add_assoc. reflexivity. Qed.

Lemma ptr_add_not_null (p : pointer) (k : Z) : p <> nullptr -> ptr_add p k <> nullptr.
Proof. destruct p; simpl; [contradiction | discriminate]. Qed.

Lemma ptr_add_0 (p : pointer) : ptr_add p 0 = p.
Proof. destruct p; simpl; [reflexivity |]. rewrite Z.add_0_r. reflexivity. Qed.

(** The first [if] of both [slice] overloads does not fire on a view with a
    pointer and elements, asked for a nonzero count. *)
Lemma slice2_guard_false (v : array_view) (c : Z) :
  data v <> nullptr -> size v <> 0 -> c <> 0 ->
  ptr_eqb (data v) nullptr || empty v || (c =? 0) = false.
Proof.
  intros Hp Hs Hc. apply ptr_eqb_false in Hp. unfold empty.
  apply Z.eqb_neq in Hs. apply Z.eqb_neq in Hc. rewrite Hp, Hs, Hc. reflexivity.
Qed.

Lemma slice2_in_range (dbg : bool) (v : array_view) (o c : Z) :
  data v <> nullptr -> in_size_t (size v) -> c <> 0 ->
  0 <= o -> 0 <= c -> o < size v -> o + c <= size v ->
  slice2 dbg v o c =
  Ok {| m_pointer := ptr_add (m_pointer v) o; m_size_in_items := c |}.
Proof.
  intros Hp [_ Hmax] Hc0 Ho Hc Hlt Hle. unfold slice2.
  rewrite slice2_guard_false by (assumption || lia).
  destruct dbg; [| reflexivity]. cbn [debug_only].
  rewrite to_size_t_id by (unfold in_size_t; lia).
  unfold error_if.
  destruct (Z.eqb_spec c 0); [contradiction |].
  destruct (Z.leb_spec (size v) o); [lia |].
  destruct (Z.ltb_spec (size v) (o + c)); [lia |]. reflexivity.
Qed.

(** X1: for every view with a non-null pointer and every offset below its
    size, in either build configuration, [slice(o)] is [slice(o, size() - o)]:
    the view of the [size() - o] elements from [o] on, whose [at(i)] is
    [at(o + i)] of the original. *)
Theorem slice1_is_slice2_to_end {T : Type} (dbg : bool) (mem : gmap Z T)
    (v : array_view) (o : Z) :
  data v <> nullptr -> in_size_t (size v) -> 0 <= o < size v ->
  slice1 dbg v o = slice2 dbg v o (size v - o) /\
  slice1 dbg v o =
    Ok {| m_pointer := ptr_add (m_pointer v) o; m_size_in_items := size v - o |} /\
  (forall i, 0 <= i < size v - o ->
     at_ mem {| m_pointer := ptr_add (m_pointer v) o;
                m_size_in_items := size v - o |} i = at_ mem v (o + i)).
Proof.
  intros Hp Hsz Ho. pose proof Hsz as [_ Hmax].
  assert (Hslice : slice2 dbg v o (size v - o) =
            Ok {| m_pointer := ptr_add (m_pointer v) o;
                  m_size_in_items := size v - o |}).
  { apply slice2_in_range; (assumption || lia). }
  assert (Hone : slice1 dbg v o = slice2 dbg v o (size v - o)).
  { unfold slice1. apply ptr_eqb_false in Hp as Hpb. rewrite Hpb.
    assert (He : empty v = false) by (apply Z.eqb_neq; lia). rewrite He.
    cbn [orb]. rewrite to_size_t_id by (unfold in_size_t; lia).
    destruct dbg; [| reflexivity]. cbn [debug_only]. unfold error_if.
    destruct (Z.leb_spec (size v) o); [lia | reflexivity]. }
  split; [exact Hone |]. split; [rewrite Hone; exact Hslice |].
  intros i Hi.
  rewrite !at_in_bounds; try assumption; cbn [size data m_size_in_items m_pointer];
    try lia.
  - rewrite ptr_add_add. reflexivity.
  - apply ptr_add_not_null, Hp.
Qed.

Lemma slice1_is_slice2_to_end_witness :
  slice1 true six_view 2 = slice2 true six_view 2 (size six_view - 2) /\
  slice1 true six_view 2 =
    Ok {| m_pointer := ptr_add (m_pointer six_view) 2;
          m_size_in_items := size six_view - 2 |} /\
  (forall i, 0 <= i < size six_view - 2 ->
     at_ six_ints {| m_pointer := ptr_add (m_pointer six_view) 2;
                     m_size_in_items := size six_view - 2 |} i =
     at_ six_ints six_view (2 + i)).
Proof.
  apply (slice1_is_slice2_to_end true six_ints six_view 2).
  - discriminate.
  - unfold in_size_t. vm_compute. split; discriminate.
  - cbn. lia.
Defined.

(** X2: the edges of [slice(o)].  On a null or empty view it returns the
    empty view whatever the offset.  On a view with a pointer and elements
    and an offset at or past its size, a build with debug checks raises the
    slice-offset error; a build without them returns the empty view when
    the offset is exactly the size, and for a larger offset a view that
    starts past the end and whose count is [size() - o] wrapped modulo
    2^64. *)
Theorem slice1_edges (v : array_view) (o : Z) :
  (data v = nullptr \/ size v = 0 ->
     forall dbg, slice1 dbg v o = Ok array_view_default) /\
  (data v <> nullptr -> size v <> 0 -> size v <= o ->
     slice1 true v o = Err slice1_offset_ge_size) /\
  (data v <> nullptr -> size v <> 0 -> o = size v ->
     slice1 false v o = Ok array_view_default) /\
  (data v <> nullptr -> in_size_t (size v) -> size v <> 0 ->
   size v < o <= SIZE_MAX ->
     slice1 false v o =
     Ok {| m_pointer := ptr_add (m_pointer v) o;
           m_size_in_items := size v - o + 2 ^ size_bits |}).
Proof.
  unfold slice1. split; [| split; [| split]].
  - intros H dbg.
    assert (Hg : ptr_eqb (data v) nullptr || empty v = true).
    { destruct H as [Hp | Hs].
      - rewrite Hp. reflexivity.
      - unfold empty. rewrite Hs. apply orb_true_r. }
    rewrite Hg. reflexivity.
  - intros Hp Hs Ho. apply ptr_eqb_false in Hp. apply Z.eqb_neq in Hs.
    unfold empty. rewrite Hp, Hs. cbn [orb debug_only]. unfold error_if.
    destruct (Z.leb_spec (size v) o); [reflexivity | lia].
  - intros Hp Hs ->. apply ptr_eqb_false in Hp. apply Z.eqb_neq in Hs.
    unfold empty. rewrite Hp, Hs. cbn [orb debug_only mbind result_bind].
    rewrite Z.sub_diag. change (to_size_t 0) with 0.
    unfold slice2. rewrite Z.eqb_refl, orb_true_r. reflexivity.
  - intros Hp [Hlo Hhi] Hs Ho. unfold SIZE_MAX, size_bits in *.
    assert (Hwrap : to_size_t (size v - o) = size v - o + 2 ^ 64).
    { unfold to_size_t, size_bits.
      rewrite <- (Z.mod_add (size v - o) 1 (2 ^ 64)) by lia.
      rewrite Z.mul_1_l. apply Z.mod_small. lia. }
    apply ptr_eqb_false in Hp as Hpb. apply Z.eqb_neq in Hs as Hsb.
    unfold empty. rewrite Hpb, Hsb. cbn [orb debug_only mbind result_bind].
    rewrite Hwrap. unfold slice2.
    rewrite slice2_guard_false by (assumption || lia). reflexivity.
Qed.

Lemma slice1_edges_witness :
  slice1 true six_view 6 = Err slice1_offset_ge_size /\
  slice1 false six_view 6 = Ok array_view_default /\
  slice1 false six_view 8 =
    Ok {| m_pointer := ptr_add (m_pointer six_view) 8;
          m_size_in_items := size six_view - 8 + 2 ^ size_bits |} /\
  slice1 true null_five 9 = Ok array_view_default.
Proof.
  split; [| split; [| split]].
  - apply (slice1_edges six_view 6); [discriminate | discriminate | cbn; lia].
  - apply (slice1_edges six_view 6); [discriminate | discriminate | reflexivity].
  - apply (proj2 (proj2 (proj2 (slice1_edges six_view 8)))).
    + discriminate.
    + unfold in_size_t. vm_compute. split; discriminate.
    + discriminate.
    + vm_compute. split; [reflexivity | discriminate].
  - apply (proj1 (slice1_edges null_five 9)). left. reflexivity.
Defined.

(** X3: the bound checks of [slice(o, c)] are debug-only.  On a view with
    a pointer and elements and a nonzero count, a build with debug checks
    raises the slice-offset error when [o >= size()] and the slice-size
    error when [o < size()] and [o + c] (computed in [size_type]) exceeds
    [size()]; a build without debug checks validates nothing and returns
    the view [{data() + o, c}] for every offset and count. *)
Theorem slice2_validation (v : array_view) (o c : Z) :
  data v <> nullptr -> size v <> 0 -> c <> 0 ->
  (size v <= o -> slice2 true v o c = Err slice2_offset_ge_size) /\
  (o < size v -> size v < to_size_t (o + c) ->
     slice2 true v o c = Err slice_size_gt_total) /\
  slice2 false v o c =
    Ok {| m_pointer := ptr_add (m_pointer v) o; m_size_in_items := c |}.
Proof.
  intros Hp Hs Hc. unfold slice2. rewrite slice2_guard_false by assumption.
  apply Z.eqb_neq in Hc. cbn [debug_only]. unfold error_if. rewrite Hc.
  split; [| split].
  - intros Ho. destruct (Z.leb_spec (size v) o); [reflexivity | lia].
  - intros Ho Hoc. destruct (Z.leb_spec (size v) o); [lia |].
    destruct (Z.ltb_spec (size v) (to_size_t (o + c))); [reflexivity | lia].
  - reflexivity.
Qed.

Lemma slice2_validation_witness :
  slice2 true six_view 6 1 = Err slice2_offset_ge_size /\
  slice2 true six_view 4 3 = Err slice_size_gt_total /\
  slice2 false six_view 4 3 =
    Ok {| m_pointer := ptr_add (m_pointer six_view) 4; m_size_in_items := 3 |}.
Proof.
  split; [| split].
  - apply (proj1 (slice2_validation six_view 6 1
      ltac:(discriminate) ltac:(discriminate) ltac:(discriminate))).
    cbn. lia.
  - apply (proj1 (proj2 (slice2_validation six_view 4 3
      ltac:(discriminate) ltac:(discriminate) ltac:(discriminate))));
      vm_compute; reflexivity.
  - apply (proj2 (proj2 (slice2_validation six_view 4 3
      ltac:(discriminate) ltac:(discriminate) ltac:(discriminate)))).
Defined.

(** X4: the debug check "array_view slice with zero size!" can never fire:
    a zero count has already returned the empty view in the first [if], so
    no view, offset, count or build configuration makes [slice(o, c)] raise
    that error. *)
Theorem slice2_never_zero_size_error (dbg : bool) (v : array_view) (o c : Z) :
  slice2 dbg v o c <> Err slice_zero_size.
Proof.
  unfold slice2.
  destruct (ptr_eqb (data v) nullptr || empty v) eqn:Hg; cbn [orb]; [discriminate |].
  destruct (Z.eqb_spec c 0) as [Hc | Hc]; [discriminate |].
  destruct dbg; cbn [debug_only]; [| discriminate].
  unfold error_if.
  destruct (size v <=? o); [discriminate |].
  destruct (size v <? to_size_t (o + c)); discriminate.
Qed.



(** X6: for a view that has a null pointer (with any count) or refers to
    a live buffer, and an offset within the view, in either build
    configuration, both [slice] overloads return either the empty view or a
    view with a non-null pointer and a nonzero count; so a returned view
    with an absent pointer always has count 0, even when the original was a
    null pointer with a count. *)
Theorem slice_result_well_formed {T : Type} (mem : gmap Z T) (dbg : bool)
    (v s : array_view) (o c : Z) :
  data v = nullptr \/ backed_by mem v ->
  0 <= o <= size v ->
  slice2 dbg v o c = Ok s \/ slice1 dbg v o = Ok s ->
  (s = array_view_default \/ (data s <> nullptr /\ size s <> 0)) /\
  (data s = nullptr -> size s = 0).
Proof.
  intros _ _.
  assert (Hshape : forall c', slice2 dbg v o c' = Ok s ->
            s = array_view_default \/ (data s <> nullptr /\ size s <> 0)).
  { intros c' H. unfold slice2 in H.
    destruct (ptr_eqb (data v) nullptr) eqn:Hp; cbn [orb] in H;
      [left; congruence |].
    destruct (empty v); cbn [orb] in H; [left; congruence |].
    destruct (Z.eqb_spec c' 0) as [Hc | Hc]; [left; congruence |].
    apply ptr_eqb_false in Hp.
    destruct (debug_only dbg _) as [[] | e |]; cbn in H; try discriminate.
    injection H as <-. right. split; [| exact Hc].
    apply ptr_add_not_null, Hp. }
  intros H.
  assert (Hs : s = array_view_default \/ (data s <> nullptr /\ size s <> 0)).
  { destruct H as [H | H]; [apply (Hshape c H) |].
    unfold slice1 in H.
    destruct (ptr_eqb (data v) nullptr || empty v); [left; congruence |].
    destruct (debug_only dbg _) as [[] | e |]; cbn in H; try discriminate.
    apply (Hshape _ H). }
  split; [exact Hs |].
  destruct Hs as [-> | [Hp _]]; [reflexivity | contradiction].
Qed.

Lemma six_view_backed : backed_by six_ints six_view.
Proof.
  split; [vm_compute; split; discriminate |].
  intros i Hi. cbn in Hi.
  assert (i = 0 \/ i = 1 \/ i = 2 \/ i = 3 \/ i = 4 \/ i = 5)
    as [-> | [-> | [-> | [-> | [-> | ->]]]]] by lia; eexists; reflexivity.
Defined.

Lemma slice_result_well_formed_witness :
  ((array_view_of (addr 102) 3 = array_view_default \/
    (data (array_view_of (addr 102) 3) <> nullptr /\
     size (array_view_of (addr 102) 3) <> 0)) /\
   (data (array_view_of (addr 102) 3) = nullptr ->
    size (array_view_of (addr 102) 3) = 0)) /\
  ((array_view_default = array_view_default \/
    (data array_view_default <> nullptr /\ size array_view_default <> 0)) /\
   (data array_view_default = nullptr -> size array_view_default = 0)).
Proof.
  split.
  - apply (slice_result_well_formed six_ints true six_view
             (array_view_of (addr 102) 3) 2 3).
    + right. exact six_view_backed.
    + vm_compute. split; discriminate.
    + left. reflexivity.
  - apply (slice_result_well_formed six_ints true null_five array_view_default 0 1).
    + left. reflexivity.
    + vm_compute. split; discriminate.
    + left. reflexivity.
Defined.

(** X7: slices compose.  For a view with a non-null pointer, cutting
    [c1] elements at [o1] and then [c2] elements at [o2] of the result is
    cutting [c2] elements at [o1 + o2] of the original, in either build
    configuration, when both cuts are in range. *)
Theorem slice2_compose (dbg : bool) (v : array_view) (o1 c1 o2 c2 : Z) :
  data v <> nullptr -> in_size_t (size v) ->
  0 <= o1 -> o1 + c1 <= size v ->
  0 <= o2 < c1 -> 0 <= c2 -> o2 + c2 <= c1 ->
  (s ← slice2 dbg v o1 c1; slice2 dbg s o2 c2) = slice2 dbg v (o1 + o2) c2.
Proof.
  intros Hp Hsz Ho1 Hc1 Ho2 Hc2 Hin. pose proof Hsz as [_ Hmax].
  rewrite (slice2_in_range dbg v o1 c1) by (assumption || lia).
  cbn [mbind result_bind].
  destruct (Z.eq_dec c2 0) as [-> | Hc2ne].
  - unfold slice2. rewrite !Z.eqb_refl, !orb_true_r. reflexivity.
  - rewrite (slice2_in_range dbg v (o1 + o2) c2) by (assumption || lia).
    rewrite slice2_in_range; cbn [data size m_pointer m_size_in_items];
      try (assumption || lia).
    + rewrite ptr_add_add. reflexivity.
    + apply ptr_add_not_null, Hp.
    + unfold in_size_t in *. lia.
Qed.

Lemma slice2_compose_witness :
  (s ← slice2 true six_view 1 4; slice2 true s 2 2) = slice2 true six_view (1 + 2) 2.
Proof.
  apply (slice2_compose true six_view 1 4 2 2).
  - discriminate.
  - unfold in_size_t. vm_compute. split; discriminate.
  - lia.
  - cbn. lia.
  - lia.
  - lia.
  - lia.
Defined.

(** X8: cutting a whole view gives the view back.  For a view with a
    non-null pointer and elements, [slice(0)] and [slice(0, size())] return
    the same pointer and size, in either build configuration. *)
Theorem slice_whole (dbg : bool) (v : array_view) :
  data v <> nullptr -> 0 < size v <= SIZE_MAX ->
  slice2 dbg v 0 (size v) = Ok v /\ slice1 dbg v 0 = Ok v.
Proof.
  intros Hp Hs.
  assert (Hsame : {| m_pointer := ptr_add (m_pointer v) 0;
                     m_size_in_items := size v |} = v).
  { rewrite ptr_add_0. destruct v. reflexivity. }
  assert (Htwo : slice2 dbg v 0 (size v) = Ok v).
  { rewrite slice2_in_range by (assumption || unfold in_size_t; lia).
    rewrite Hsame. reflexivity. }
  split; [exact Htwo |].
  unfold slice1. apply ptr_eqb_false in Hp as Hpb. rewrite Hpb.
  assert (He : empty v = false) by (apply Z.eqb_neq; lia). rewrite He.
  cbn [orb]. rewrite Z.sub_0_r, to_size_t_id by (unfold in_size_t; lia).
  destruct dbg; cbn [debug_only]; [| exact Htwo].
  unfold error_if. destruct (Z.leb_spec (size v) 0); [lia | exact Htwo].
Qed.

Lemma slice_whole_witness :
  slice2 true six_view 0 (size six_view) = Ok six_view /\
  slice1 true six_view 0 = Ok six_view.
Proof.
  apply (slice_whole true six_view).
  - discriminate.
  - vm_compute. split; [reflexivity | discriminate].
Defined.

(** ** Element access, continued *)

(** X9: [operator[]] against [at].  For an index inside a view with a
    non-null pointer the two agree in either build configuration.  In a
    build with debug checks [operator[]] raises the null-or-empty error on
    a null or empty view and its own out-of-bounds error for
    [index >= size()]; in a build without them it validates nothing and is
    the read at [data() + index], whatever the view and the index. *)
Theorem subscript_vs_at {T : Type} (mem : gmap Z T) (v : array_view) (i : Z) :
  (data v <> nullptr -> 0 <= i < size v ->
     forall dbg, subscript dbg mem v i = at_ mem v i) /\
  (data v = nullptr \/ size v = 0 ->
     subscript true mem v i = Err view_null_or_empty) /\
  (data v <> nullptr -> size v <> 0 -> size v <= i ->
     subscript true mem v i = Err index_out_of_bounds) /\
  subscript false mem v i = load mem (ptr_add (data v) i).
Proof.
  split; [| split; [| split]].
  - intros Hp Hi dbg. rewrite at_in_bounds by (assumption || lia).
    unfold subscript. destruct dbg; [| reflexivity]. cbn [debug_only].
    rewrite check_not_null_passes by (assumption || lia).
    unfold error_if. destruct (Z.leb_spec (size v) i); [lia | reflexivity].
  - intros H. unfold subscript. cbn [debug_only].
    rewrite (check_not_null_fails v H). reflexivity.
  - intros Hp Hs Hi. unfold subscript. cbn [debug_only].
    rewrite check_not_null_passes by assumption.
    unfold error_if. destruct (Z.leb_spec (size v) i); [reflexivity | lia].
  - reflexivity.
Qed.

Lemma subscript_vs_at_witness :
  subscript false six_ints six_view 2 = at_ six_ints six_view 2 /\
  subscript true six_ints array_view_default 0 = Err view_null_or_empty /\
  subscript true six_ints six_view 6 = Err index_out_of_bounds.
Proof.
  split; [| split].
  - apply (proj1 (subscript_vs_at six_ints six_view 2));
      [discriminate | cbn; lia].
  - apply (proj1 (proj2 (subscript_vs_at six_ints array_view_default 0))).
    left. reflexivity.
  - apply (proj1 (proj2 (proj2 (subscript_vs_at six_ints six_view 6))));
      [discriminate | discriminate | cbn; lia].
Defined.

(** X10: [front()] and [back()].  On a view with a non-null pointer and
    [size() > 0] they are [at(0)] and [at(size() - 1)] in either build
    configuration.  On a null or empty view a build with debug checks
    raises the null-or-empty error for both; a build without them reads
    through [data()] for [front()] and one element before [data() + size()]
    for [back()], which on an empty view with a pointer is the element
    before the buffer. *)
Theorem front_back {T : Type} (mem : gmap Z T) (v : array_view) :
  (data v <> nullptr -> 0 < size v ->
     forall dbg, front dbg mem v = at_ mem v 0 /\
                 back dbg mem v = at_ mem v (size v - 1)) /\
  (data v = nullptr \/ size v = 0 ->
     front true mem v = Err view_null_or_empty /\
     back true mem v = Err view_null_or_empty) /\
  (front false mem v = load mem (data v) /\
   back false mem v = load mem (ptr_add (data v) (size v - 1))).
Proof.
  split; [| split].
  - intros Hp Hs dbg. rewrite !at_in_bounds by (assumption || lia).
    unfold front, back. rewrite ptr_add_add, ptr_add_0.
    replace (size v + -1) with (size v - 1) by lia.
    destruct dbg; cbn [debug_only]; [| split; reflexivity].
    rewrite check_not_null_passes by (assumption || lia). split; reflexivity.
  - intros H. unfold front, back. cbn [debug_only].
    rewrite (check_not_null_fails v H). split; reflexivity.
  - unfold front, back. cbn [debug_only mbind result_bind].
    rewrite ptr_add_add. replace (size v + -1) with (size v - 1) by lia.
    split; reflexivity.
Qed.

Lemma front_back_witness :
  (front true six_ints six_view = at_ six_ints six_view 0 /\
   back true six_ints six_view = at_ six_ints six_view (size six_view - 1)) /\
  (front true six_ints null_five = Err view_null_or_empty /\
   back true six_ints null_five = Err view_null_or_empty).
Proof.
  split.
  - apply (proj1 (front_back six_ints six_view)); [discriminate | reflexivity].
  - apply (proj1 (proj2 (front_back six_ints null_five))). left. reflexivity.
Defined.

(** The concrete scenario of the specification: [front()] is 0 and [back()]
    is 50 on the six integers; without debug checks [back()] of an empty
    view at address 101 reads the element at address 100. *)
Example front_back_six :
  front true six_ints six_view = Ok 0 /\ back true six_ints six_view = Ok 50 /\
  back false six_ints (array_view_of (addr 101) 0) = Ok 0.
Proof. repeat split. Qed.

(** X11: what a successful checked access returns.  If [at(index)]
    returns a value, for an index of [size_type], then the view has a
    pointer, the index is below [size()], and the value is the object
    stored at [data() + index]: [at] never hands out anything outside
    the view.  The same holds for [operator[]] in a build with debug
    checks. *)
Theorem at_success_in_bounds {T : Type} (mem : gmap Z T) (v : array_view)
    (i : Z) (x : T) :
  0 <= i ->
  at_ mem v i = Ok x \/ subscript true mem v i = Ok x ->
  exists base, data v = addr base /\ 0 <= i < size v /\ mem !! (base + i) = Some x.
Proof.
  intros Hi H.
  assert (Hload : check_not_null v = Ok () /\ (size v <=? i) = false /\
                  load mem (ptr_add (data v) i) = Ok x).
  { destruct H as [H | H]; unfold at_, subscript in H; cbn [debug_only] in H;
      destruct (check_not_null v) as [[] | e |]; cbn in H; try discriminate;
      unfold error_if in H; destruct (size v <=? i); cbn in H; try discriminate;
      repeat split; exact H. }
  destruct Hload as [_ [Hb Hl]]. apply Z.leb_gt in Hb.
  destruct (data v) as [| base]; cbn in Hl; [discriminate |].
  exists base. split; [reflexivity |]. split; [lia |].
  destruct (mem !! (base + i)) as [y |]; [| discriminate].
  injection Hl as ->. reflexivity.
Qed.

Lemma at_success_in_bounds_witness :
  exists base, data six_view = addr base /\ 0 <= 3 < size six_view /\
               six_ints !! (base + 3) = Some 30.
Proof.
  apply (at_success_in_bounds six_ints six_view 3 30); [lia |].
  left. reflexivity.
Defined.

(** ** Iterators, continued *)

Lemma increment_ok (dbg : bool) (it : array_iterator_base) (d : Z) :
  m_parent_array it <> nullptr \/ dbg = false ->
  in_ptrdiff_t (m_current_index it + d) ->
  increment dbg it d =
  Ok {| m_parent_array := m_parent_array it;
        m_current_index := m_current_index it + d |}.
Proof.
  intros Hb Hfit. apply fits_ptrdiff_t_true in Hfit. unfold increment.
  rewrite Hfit. destruct Hb as [Hp | ->]; [| reflexivity].
  apply ptr_eqb_false in Hp. rewrite Hp. destruct dbg; reflexivity.
Qed.

Lemma decrement_ok (dbg : bool) (it : array_iterator_base) (d : Z) :
  m_parent_array it <> nullptr \/ dbg = false ->
  in_ptrdiff_t (m_current_index it - d) ->
  decrement dbg it d =
  Ok {| m_parent_array := m_parent_array it;
        m_current_index := m_current_index it - d |}.
Proof.
  intros Hb Hfit. apply fits_ptrdiff_t_true in Hfit. unfold decrement.
  rewrite Hfit. destruct Hb as [Hp | ->]; [| reflexivity].
  apply ptr_eqb_false in Hp. rewrite Hp. destruct dbg; reflexivity.
Qed.

Lemma in_ptrdiff_t_index (n i : Z) :
  0 <= i <= n -> n <= PTRDIFF_MAX -> in_ptrdiff_t i.
Proof. unfold in_ptrdiff_t, PTRDIFF_MIN, PTRDIFF_MAX, size_bits. lia. Qed.

(** X12: walking a view with its iterator reads what [at] reads.  For a
    view object with a non-null pointer and at most PTRDIFF_MAX elements,
    and every index [i] in [0, size()), [*(begin() + i)] is [at(i)], in
    either build configuration. *)
Theorem begin_plus_star {T : Type} (dbg : bool) (objs : gmap Z array_view)
    (mem : gmap Z T) (this : Z) (v : array_view) (i : Z) :
  objs !! this = Some v -> data v <> nullptr ->
  0 <= i < size v -> size v <= PTRDIFF_MAX ->
  (it ← iter_plus dbg (begin this v) i; iter_star dbg objs mem it) = at_ mem v i.
Proof.
  intros Hobj Hp Hi Hmax. destruct (begin_end_bound this v Hp) as [-> _].
  unfold iter_plus. rewrite increment_ok; cbn [m_parent_array m_current_index].
  - cbn [mbind result_bind]. rewrite Z.add_0_l.
    rewrite (iter_star_in_range dbg objs mem this v i) by assumption.
    rewrite at_in_bounds by (assumption || lia). reflexivity.
  - left. discriminate.
  - apply (in_ptrdiff_t_index (size v)); lia.
Qed.

Lemma begin_plus_star_witness :
  (it ← iter_plus true (begin 2000 two_view) 1; iter_star true two_objs six_ints it) =
  at_ six_ints two_view 1.
Proof.
  apply (begin_plus_star true two_objs six_ints 2000 two_view 1).
  - reflexivity.
  - discriminate.
  - cbn. lia.
  - vm_compute. discriminate.
Defined.

(** X13: the distance from [begin()] to [end()].  For a view with a
    non-null pointer and at most PTRDIFF_MAX elements, [end() - begin()]
    is [size()]; for a view with a null pointer it is 0 whatever count the
    view holds, since both are the null iterator.  Either build
    configuration. *)
Theorem end_minus_begin (dbg : bool) (this : Z) (v : array_view) :
  (data v <> nullptr -> 0 <= size v <= PTRDIFF_MAX ->
     iter_diff dbg (end_ this v) (begin this v) = Ok (size v)) /\
  (data v = nullptr ->
     iter_diff dbg (end_ this v) (begin this v) = Ok 0).
Proof.
  split.
  - intros Hp Hs. destruct (begin_end_bound this v Hp) as [-> ->].
    assert (Hin : in_ptrdiff_t (size v)).
    { apply (in_ptrdiff_t_index (size v)); lia. }
    rewrite to_ptrdiff_t_id by exact Hin.
    unfold iter_diff, check_same_parent. cbn [m_parent_array m_current_index].
    rewrite ptr_eqb_refl, Z.sub_0_r.
    apply fits_ptrdiff_t_true in Hin. rewrite Hin. destruct dbg; reflexivity.
  - intros Hp. destruct (begin_end_null this v Hp) as [-> ->].
    destruct dbg; reflexivity.
Qed.

Lemma end_minus_begin_witness :
  iter_diff true (end_ 2000 six_view) (begin 2000 six_view) = Ok (size six_view) /\
  iter_diff true (end_ 2000 null_five) (begin 2000 null_five) = Ok 0.
Proof.
  split.
  - apply (proj1 (end_minus_begin true 2000 six_view));
      [discriminate | vm_compute; split; discriminate].
  - apply (proj2 (end_minus_begin true 2000 null_five)). reflexivity.
Defined.

(** X14: iterator arithmetic composes and undoes itself.  For an iterator
    with a parent (or any iterator in a build without debug checks), as
    long as the indices reached fit [difference_type]:
    [(it + j) + k] is [it + (j + k)], [(it + j) - j] is [it], and
    [--(++it)] is [it]; the parent is never changed. *)
Theorem iterator_arithmetic (dbg : bool) (it : array_iterator_base) (j k : Z) :
  m_parent_array it <> nullptr \/ dbg = false ->
  in_ptrdiff_t (m_current_index it) ->
  in_ptrdiff_t (m_current_index it + j) ->
  in_ptrdiff_t (m_current_index it + j + k) ->
  in_ptrdiff_t (m_current_index it + 1) ->
  (a ← iter_plus dbg it j; iter_plus dbg a k) = iter_plus dbg it (j + k) /\
  (a ← iter_plus dbg it j; iter_minus dbg a j) = Ok it /\
  (a ← iter_incr dbg it; iter_decr dbg a) = Ok it /\
  (forall a, iter_plus dbg it j = Ok a -> m_parent_array a = m_parent_array it).
Proof.
  intros Hb Hidx Hj Hjk H1.
  unfold iter_plus, iter_minus, iter_incr, iter_decr.
  rewrite (increment_ok dbg it j Hb Hj), (increment_ok dbg it 1 Hb H1).
  rewrite (increment_ok dbg it (j + k) Hb) by (rewrite Z.add_assoc; exact Hjk).
  cbn [mbind result_bind].
  rewrite increment_ok, !decrement_ok; cbn [m_parent_array m_current_index];
    try assumption.
  - rewrite Z.add_assoc.
    replace (m_current_index it + j - j) with (m_current_index it) by lia.
    replace (m_current_index it + 1 - 1) with (m_current_index it) by lia.
    destruct it. repeat split. intros a Ha. injection Ha as <-. reflexivity.
  - replace (m_current_index it + 1 - 1) with (m_current_index it) by lia.
    exact Hidx.
  - replace (m_current_index it + j - j) with (m_current_index it) by lia.
    exact Hidx.
Qed.

Lemma iterator_arithmetic_witness :
  (a ← iter_plus true past_two 3; iter_plus true a (-7)) = iter_plus true past_two (3 + -7) /\
  (a ← iter_plus true past_two 3; iter_minus true a 3) = Ok past_two /\
  (a ← iter_incr true past_two; iter_decr true a) = Ok past_two /\
  (forall a, iter_plus true past_two 3 = Ok a ->
     m_parent_array a = m_parent_array past_two).
Proof.
  apply (iterator_arithmetic true past_two 3 (-7)).
  - left. discriminate.
  - vm_compute. split; discriminate.
  - vm_compute. split; discriminate.
  - vm_compute. split; discriminate.
  - vm_compute. split; discriminate.
Defined.

(** X15: comparing two iterators of one parent never fails and is the
    comparison of their indices, in either build configuration: [==], [!=],
    [<], [>], [<=], [>=] are the six integer comparisons, [a < b] is
    [b > a], and when the difference fits [difference_type], [a - b] is the
    difference of the indices. *)
Theorem same_parent_comparisons (dbg : bool) (a b : array_iterator_base) :
  m_parent_array a = m_parent_array b ->
  iter_eq dbg a b = Ok (m_current_index a =? m_current_index b) /\
  iter_ne dbg a b = Ok (negb (m_current_index a =? m_current_index b)) /\
  iter_lt dbg a b = Ok (m_current_index a <? m_current_index b) /\
  iter_gt dbg a b = Ok (m_current_index b <? m_current_index a) /\
  iter_le dbg a b = Ok (m_current_index a <=? m_current_index b) /\
  iter_ge dbg a b = Ok (m_current_index b <=? m_current_index a) /\
  iter_lt dbg a b = iter_gt dbg b a /\
  (in_ptrdiff_t (m_current_index a - m_current_index b) ->
     iter_diff dbg a b = Ok (m_current_index a - m_current_index b)).
Proof.
  intros Hp.
  assert (Hab : debug_only dbg (check_same_parent a b) = Ok ()).
  { unfold check_same_parent. rewrite Hp, ptr_eqb_refl. destruct dbg; reflexivity. }
  assert (Hba : debug_only dbg (check_same_parent b a) = Ok ()).
  { unfold check_same_parent. rewrite Hp, ptr_eqb_refl. destruct dbg; reflexivity. }
  unfold iter_ne, iter_le, iter_ge, iter_eq, iter_lt, iter_gt, iter_diff.
  rewrite Hab, Hba. cbn [mbind result_bind fmap result_fmap].
  rewrite Z.gtb_ltb, (Z.gtb_ltb (m_current_index b)).
  rewrite <- !Z.leb_antisym.
  repeat split.
  intros Hfit. apply fits_ptrdiff_t_true in Hfit. rewrite Hfit. reflexivity.
Qed.

Lemma same_parent_comparisons_witness :
  iter_lt true (begin 2000 six_view) (end_ 2000 six_view) = Ok true /\
  iter_diff true (begin 2000 six_view) (end_ 2000 six_view) = Ok (-6).
Proof.
  pose proof (same_parent_comparisons true (begin 2000 six_view) (end_ 2000 six_view)
                ltac:(reflexivity)) as H.
  split.
  - apply H.
  - apply H. vm_compute. split; discriminate.
Defined.

(** X16: in a build without debug checks, iterators of different views are
    compared by index alone.  [begin()] of any view equals [begin()] of any
    other view, and the difference of two iterators of different parents is
    the difference of their indices. *)
Theorem unchecked_cross_view_comparison (this that : Z) (v w : array_view)
    (a b : array_iterator_base) :
  iter_eq false (begin this v) (begin that w) = Ok true /\
  iter_eq false a b = Ok (m_current_index a =? m_current_index b) /\
  (in_ptrdiff_t (m_current_index a - m_current_index b) ->
     iter_diff false a b = Ok (m_current_index a - m_current_index b)).
Proof.
  split; [| split].
  - unfold begin, make_iterator.
    destruct (ptr_eqb (data v) nullptr), (ptr_eqb (data w) nullptr); reflexivity.
  - reflexivity.
  - intros Hfit. apply fits_ptrdiff_t_true in Hfit. unfold iter_diff.
    rewrite Hfit. reflexivity.
Qed.

Lemma unchecked_cross_view_comparison_witness :
  iter_diff false iter_of_two iter_of_one =
  Ok (m_current_index iter_of_two - m_current_index iter_of_one).
Proof.
  apply (unchecked_cross_view_comparison 1 2 six_view six_view iter_of_two iter_of_one).
  vm_compute. split; discriminate.
Defined.

(** X17: which iterators are dereferenceable.  An iterator without a parent
    never is.  An iterator whose parent is a live view object is
    dereferenceable exactly when its index is in [0, size()); so [end()] is
    not, and [begin()] is exactly when the view has elements. *)
Theorem is_dereferenceable_spec (objs : gmap Z array_view) (this : Z)
    (v : array_view) (i : Z) :
  is_dereferenceable objs {| m_parent_array := nullptr; m_current_index := i |} =
    Ok false /\
  (objs !! this = Some v -> in_ptrdiff_t i ->
     is_dereferenceable objs {| m_parent_array := addr this; m_current_index := i |} =
       Ok ((0 <=? i) && (i <? size v))) /\
  (objs !! this = Some v -> 0 <= size v <= PTRDIFF_MAX ->
     is_dereferenceable objs (end_ this v) = Ok false /\
     is_dereferenceable objs (begin this v) =
       Ok (negb (ptr_eqb (data v) nullptr) && (0 <? size v))).
Proof.
  assert (Hbound : objs !! this = Some v -> in_ptrdiff_t i ->
     is_dereferenceable objs {| m_parent_array := addr this; m_current_index := i |} =
       Ok ((0 <=? i) && (i <? size v))).
  { intros Hobj [Hlo Hhi]. unfold is_dereferenceable, deref_parent.
    cbn [m_parent_array m_current_index]. rewrite Hobj.
    change (ptr_eqb (addr this) nullptr) with false. cbn match.
    destruct (Z.ltb_spec i 0) as [Hneg | Hpos].
    - destruct (Z.leb_spec 0 i); [lia | reflexivity].
    - destruct (Z.leb_spec 0 i); [| lia].
      rewrite to_size_t_id
        by (unfold in_size_t, SIZE_MAX, PTRDIFF_MAX, size_bits in *; lia).
      reflexivity. }
  split; [reflexivity |]. split; [exact Hbound |].
  intros Hobj Hs. unfold end_, begin, make_iterator.
  destruct (ptr_eqb (data v) nullptr) eqn:Hp; cbn [negb andb]; [split; reflexivity |].
  clear Hbound. split.
  - unfold is_dereferenceable, deref_parent. cbn [m_parent_array m_current_index].
    rewrite Hobj. change (ptr_eqb (addr this) nullptr) with false. cbn match.
    rewrite to_ptrdiff_t_id by (apply (in_ptrdiff_t_index (size v)); lia).
    destruct (Z.ltb_spec (size v) 0); [reflexivity |]. cbn [mbind result_bind].
    rewrite to_size_t_id
      by (unfold in_size_t, SIZE_MAX, PTRDIFF_MAX, size_bits in *; lia).
    rewrite Z.ltb_irrefl. reflexivity.
  - unfold is_dereferenceable, deref_parent. cbn [m_parent_array m_current_index].
    rewrite Hobj. reflexivity.
Qed.

Lemma is_dereferenceable_spec_witness :
  is_dereferenceable two_objs {| m_parent_array := addr 2000; m_current_index := 1 |} =
    Ok ((0 <=? 1) && (1 <? size two_view)) /\
  is_dereferenceable two_objs (end_ 2000 two_view) = Ok false.
Proof.
  split.
  - apply (proj1 (proj2 (is_dereferenceable_spec two_objs 2000 two_view 1)));
      [reflexivity | vm_compute; split; discriminate].
  - apply (proj2 (proj2 (is_dereferenceable_spec two_objs 2000 two_view 0)));
      [reflexivity | vm_compute; split; discriminate].
Defined.

Lemma is_dereferenceable_in_range (objs : gmap Z array_view) (this : Z)
    (v : array_view) (i : Z) :
  objs !! this = Some v -> 0 <= i < size v -> size v <= PTRDIFF_MAX ->
  is_dereferenceable objs {| m_parent_array := addr this; m_current_index := i |} =
  Ok true.
Proof.
  intros Hobj Hi Hmax. unfold is_dereferenceable, deref_parent.
  cbn [m_parent_array m_current_index]. rewrite Hobj.
  change (ptr_eqb (addr this) nullptr) with false. cbn match.
  rewrite to_size_t_id
    by (unfold in_size_t, SIZE_MAX, PTRDIFF_MAX, size_bits in *; lia).
  destruct (Z.ltb_spec i 0); [lia |]. cbn [mbind result_bind].
  destruct (Z.ltb_spec i (size v)); [reflexivity | lia].
Qed.

Lemma subscript_checked_success {T : Type} (mem : gmap Z T) (v : array_view)
    (i : Z) (x : T) :
  subscript true mem v i = Ok x ->
  i < size v /\ load mem (ptr_add (data v) i) = Ok x.
Proof.
  unfold subscript. cbn [debug_only]. intros H.
  destruct (check_not_null v) as [[] | e |]; cbn in H; try discriminate.
  unfold error_if in H. destruct (Z.leb_spec (size v) i); cbn in H;
    [discriminate |].
  split; [lia | exact H].
Qed.

(** X18: what a successful dereference returns in a build with debug
    checks.  If [*it] returns a value, then the iterator has a parent that
    is a live view object with a pointer, its index is in [0, size()), and
    the value is the object stored at [data() + index] of the parent. *)
Theorem iter_star_checked_success {T : Type} (objs : gmap Z array_view)
    (mem : gmap Z T) (it : array_iterator_base) (x : T) :
  in_ptrdiff_t (m_current_index it) ->
  iter_star true objs mem it = Ok x ->
  exists this v base,
    m_parent_array it = addr this /\ objs !! this = Some v /\
    data v = addr base /\ 0 <= m_current_index it < size v /\
    mem !! (base + m_current_index it) = Some x.
Proof.
  destruct it as [p i]. cbn [m_current_index m_parent_array]. intros [Hlo Hhi] H.
  unfold iter_star, not_dereferenceable, is_dereferenceable, deref_parent in H.
  cbn [debug_only m_parent_array m_current_index] in H.
  destruct p as [| this]; [discriminate |].
  change (ptr_eqb (addr this) nullptr) with false in H. cbn match in H.
  destruct (Z.ltb_spec i 0) as [Hneg | Hpos]; [discriminate |].
  destruct (objs !! this) as [v |] eqn:Hobj; [| discriminate].
  cbn [mbind result_bind] in H.
  rewrite to_size_t_id in H
    by (unfold in_size_t, SIZE_MAX, PTRDIFF_MAX, size_bits in *; lia).
  destruct (Z.ltb_spec i (size v)) as [Hin | Hout]; cbn in H; [| discriminate].
  apply subscript_checked_success in H as [_ Hl].
  destruct (data v) as [| base] eqn:Hd; cbn in Hl; [discriminate |].
  destruct (mem !! (base + i)) as [y |] eqn:Hy; [| discriminate].
  injection Hl as ->.
  exists this, v, base. repeat split; (assumption || lia).
Qed.

Lemma iter_star_checked_success_witness :
  exists this v base,
    m_parent_array (begin 2000 two_view) = addr this /\
    two_objs !! this = Some v /\ data v = addr base /\
    0 <= m_current_index (begin 2000 two_view) < size v /\
    six_ints !! (base + m_current_index (begin 2000 two_view)) = Some 0.
Proof.
  apply (iter_star_checked_success two_objs six_ints (begin 2000 two_view) 0).
  - vm_compute. split; discriminate.
  - reflexivity.
Defined.

(** X19: indexed access through an iterator whose parent is a live view
    object of at most PTRDIFF_MAX elements.  When the view has a non-null
    pointer, the iterator is at an index [i >= 0] and [k] is an offset with
    [i + k < size()], [it[k]] is [at(i + k)] in either build configuration.
    In a build with debug checks [it[k]] raises the out-of-bounds error
    when [i] is inside the view and [i + k >= size()], and raises the
    not-dereferenceable error whenever [i] is outside [0, size()), even
    if [i + k] is a valid index. *)
Theorem iter_index_spec {T : Type} (objs : gmap Z array_view) (mem : gmap Z T)
    (this : Z) (v : array_view) (i k : Z) :
  objs !! this = Some v -> size v <= PTRDIFF_MAX -> 0 <= k ->
  (data v <> nullptr -> 0 <= i -> i + k < size v -> forall dbg,
     iter_index dbg objs mem {| m_parent_array := addr this; m_current_index := i |} k =
     at_ mem v (i + k)) /\
  (0 <= i < size v -> size v <= i + k <= SIZE_MAX ->
     iter_index true objs mem {| m_parent_array := addr this; m_current_index := i |} k =
     Err iterator_index_out_of_bounds) /\
  (in_ptrdiff_t i -> i < 0 \/ size v <= i ->
     iter_index true objs mem {| m_parent_array := addr this; m_current_index := i |} k =
     Err iterator_index_not_dereferenceable).
Proof.
  intros Hobj Hmax Hk. split; [| split].
  - intros Hp Hi Hik dbg.
    assert (Hwrap : to_size_t (i + k) = i + k).
    { apply to_size_t_id.
      unfold in_size_t, SIZE_MAX, PTRDIFF_MAX, size_bits in *. lia. }
    unfold iter_index, not_dereferenceable.
    rewrite (is_dereferenceable_in_range objs this v i) by (assumption || lia).
    unfold deref_parent. cbn [m_parent_array m_current_index].
    rewrite Hobj, Hwrap. cbn [mbind result_bind negb error_if].
    rewrite subscript_in_range by (assumption || lia).
    rewrite at_in_bounds by (assumption || lia).
    destruct (Z.leb_spec (size v) (i + k)); [lia |].
    destruct dbg; reflexivity.
  - intros Hi Hik.
    assert (Hwrap : to_size_t (i + k) = i + k).
    { apply to_size_t_id. unfold in_size_t. lia. }
    unfold iter_index, not_dereferenceable.
    rewrite (is_dereferenceable_in_range objs this v i) by (assumption || lia).
    unfold deref_parent. cbn [m_parent_array m_current_index debug_only].
    rewrite Hobj, Hwrap. cbn [mbind result_bind negb error_if].
    destruct (Z.leb_spec (size v) (i + k)); [reflexivity | lia].
  - intros [Hlo Hhi] Hout.
    assert (Hnot : is_dereferenceable objs
              {| m_parent_array := addr this; m_current_index := i |} = Ok false).
    { unfold is_dereferenceable, deref_parent.
      cbn [m_parent_array m_current_index]. rewrite Hobj.
      change (ptr_eqb (addr this) nullptr) with false. cbn match.
      destruct (Z.ltb_spec i 0); [reflexivity |]. cbn [mbind result_bind].
      rewrite to_size_t_id
        by (unfold in_size_t, SIZE_MAX, PTRDIFF_MAX, size_bits in *; lia).
      destruct (Z.ltb_spec i (size v)); [lia | reflexivity]. }
    unfold iter_index, not_dereferenceable. cbn [debug_only].
    rewrite Hnot. reflexivity.
Qed.

Lemma iter_index_spec_witness :
  iter_index true two_objs six_ints
    {| m_parent_array := addr 2000; m_current_index := 0 |} 1 = at_ six_ints two_view (0 + 1) /\
  iter_index true two_objs six_ints
    {| m_parent_array := addr 2000; m_current_index := 1 |} 1 =
    Err iterator_index_out_of_bounds /\
  iter_index true two_objs six_ints
    {| m_parent_array := addr 2000; m_current_index := -1 |} 1 =
    Err iterator_index_not_dereferenceable.
Proof.
  split; [| split].
  - apply (proj1 (iter_index_spec two_objs six_ints 2000 two_view 0 1
      ltac:(reflexivity) ltac:(vm_compute; discriminate) ltac:(lia)));
      [discriminate | lia | cbn; lia].
  - apply (proj1 (proj2 (iter_index_spec two_objs six_ints 2000 two_view 1 1
      ltac:(reflexivity) ltac:(vm_compute; discriminate) ltac:(lia))));
      [cbn; lia | vm_compute; split; discriminate].
  - apply (proj2 (proj2 (iter_index_spec two_objs six_ints 2000 two_view (-1) 1
      ltac:(reflexivity) ltac:(vm_compute; discriminate) ltac:(lia))));
      [vm_compute; split; discriminate | left; lia].
Defined.

(** X20: reverse traversal.  For a view object with a non-null pointer and
    at most PTRDIFF_MAX elements, [*(rbegin() + i)] is [at(size() - 1 - i)]
    for every [i] in [0, size()), and [rbegin() + size()] equals [rend()],
    in either build configuration. *)
Theorem reverse_traversal {T : Type} (dbg : bool) (objs : gmap Z array_view)
    (mem : gmap Z T) (this : Z) (v : array_view) (i : Z) :
  objs !! this = Some v -> data v <> nullptr ->
  0 <= i < size v -> size v <= PTRDIFF_MAX ->
  (r ← rev_plus dbg (rbegin this v) i; rev_star dbg objs mem r) =
    at_ mem v (size v - 1 - i) /\
  (r ← rev_plus dbg (rbegin this v) (size v); rev_eq dbg r (rend this v)) = Ok true.
Proof.
  intros Hobj Hp Hi Hmax. unfold rbegin, rend, rev_plus, rev_star, rev_eq.
  destruct (begin_end_bound this v Hp) as [-> ->].
  rewrite to_ptrdiff_t_id by (apply (in_ptrdiff_t_index (size v)); lia).
  unfold iter_minus, iter_decr. cbn [current].
  rewrite !decrement_ok; cbn [m_parent_array m_current_index];
    try (left; discriminate);
    try (apply (in_ptrdiff_t_index (size v)); lia).
  cbn [mbind result_bind current].
  rewrite decrement_ok; cbn [m_parent_array m_current_index];
    [| left; discriminate | apply (in_ptrdiff_t_index (size v)); lia].
  cbn [mbind result_bind]. split.
  - rewrite (iter_star_in_range dbg objs mem this v) by (assumption || lia).
    rewrite at_in_bounds by (assumption || lia).
    replace (size v - i - 1) with (size v - 1 - i) by lia. reflexivity.
  - rewrite iter_eq_same_parent by reflexivity. cbn [m_current_index].
    rewrite Z.sub_diag. reflexivity.
Qed.

Lemma reverse_traversal_witness :
  (r ← rev_plus true (rbegin 2000 two_view) 0; rev_star true two_objs six_ints r) =
    at_ six_ints two_view (size two_view - 1 - 0) /\
  (r ← rev_plus true (rbegin 2000 two_view) (size two_view);
   rev_eq true r (rend 2000 two_view)) = Ok true.
Proof.
  apply (reverse_traversal true two_objs six_ints 2000 two_view 0).
  - reflexivity.
  - discriminate.
  - cbn. lia.
  - vm_compute. discriminate.
Defined.

(** ** Equality of views, continued *)

Section view_equality_more.
Context {T : Type} (T_eq : T -> T -> bool).
Implicit Types (mem : gmap Z T) (objs : gmap Z array_view) (a b c : array_view).

(** [operator==] on two views with different pointers that refer to live
    buffers. *)
Lemma view_eq_backed (fuel : nat) (dbg : bool) objs mem (this other : Z) a b :
  objs !! this = Some a -> objs !! other = Some b ->
  data a <> data b -> backed_by mem a -> backed_by mem b ->
  (Z.to_nat (size a) < fuel)%nat ->
  exists r, view_eq T_eq fuel dbg objs mem this other = Some (Ok r) /\
    (r = true <-> size a = size b /\ pairwise_equal T_eq mem a b).
Proof.
  intros Ha Hb Hne Hba Hbb Hfuel. unfold view_eq. rewrite Ha, Hb.
  apply ptr_eqb_false in Hne. rewrite Hne.
  destruct (Z.eqb_spec (size a) (size b)) as [Hsz | Hsz]; cbn [negb].
  - destruct fuel as [| fuel]; [lia |].
    destruct (Z.eq_dec (size a) 0) as [Hzero | Hpos].
    + assert (Hsame : end_ this a = begin this a).
      { unfold end_, begin. rewrite Hzero. reflexivity. }
      rewrite Hsame, std_equal_empty_range. exists true.
      split; [reflexivity |]. split; [| reflexivity].
      intros _. split; [assumption |]. intros i Hi. lia.
    + assert (Hsa : 0 < size a) by (destruct Hba as [? _]; lia).
      pose proof (backed_by_not_null mem a Hba Hsa) as Hpa.
      pose proof (backed_by_not_null mem b Hbb ltac:(lia)) as Hpb.
      destruct (begin_end_bound this a Hpa) as [-> ->].
      destruct (begin_end_bound other b Hpb) as [-> _].
      rewrite to_ptrdiff_t_id
        by (destruct Hba as [? _]; apply (in_ptrdiff_t_index (size a)); lia).
      destruct (std_equal_loop T_eq dbg objs mem this other a b Ha Hb Hsz Hba Hbb
                  (Z.to_nat (size a)) 0 (S fuel) ltac:(lia) ltac:(lia) Hfuel)
        as [r [Hr Hiff]].
      exists r. split; [exact Hr |]. rewrite Hiff. unfold pairwise_equal.
      split; [intros Hall; split; [assumption | exact Hall] | intros [_ Hall]; exact Hall].
  - exists false. split; [reflexivity |].
    split; [discriminate |]. intros [Hsz' _]. contradiction.
Qed.

(** X21: two views without elements are equal whatever their pointers, and
    a view with a null pointer is equal to every view of the same declared
    size: [operator==] answers true without comparing any element, in
    either build configuration. *)
Theorem view_eq_empty_or_null (fuel : nat) (dbg : bool) objs mem (this other : Z) a b :
  objs !! this = Some a -> objs !! other = Some b ->
  (size a = 0 /\ size b = 0) \/ (data a = nullptr /\ size a = size b) ->
  view_eq T_eq (S fuel) dbg objs mem this other = Some (Ok true).
Proof.
  intros Ha Hb Hcase. unfold view_eq. rewrite Ha, Hb.
  destruct (ptr_eqb (data a) (data b)); [reflexivity |].
  assert (Hsz : (size a =? size b) = true).
  { apply Z.eqb_eq. destruct Hcase as [[-> ->] | [_ Hs]]; [reflexivity | exact Hs]. }
  rewrite Hsz. cbn [negb].
  assert (Hsame : end_ this a = begin this a).
  { destruct Hcase as [[Hzero _] | [Hnull _]].
    - unfold end_, begin. rewrite Hzero. reflexivity.
    - destruct (begin_end_null this a Hnull) as [-> ->]. reflexivity. }
  rewrite Hsame. apply std_equal_empty_range.
Qed.

(** X22: [operator==] is symmetric on views that refer to live buffers,
    when the [operator==] of the elements is: [a == b] and [b == a] end
    with the same answer, in either build configuration. *)
Theorem view_eq_symmetric (fuel : nat) (dbg : bool) objs mem (this other : Z) a b :
  (forall x y, T_eq x y = T_eq y x) ->
  objs !! this = Some a -> objs !! other = Some b ->
  backed_by mem a -> backed_by mem b ->
  (Z.to_nat (size a) < fuel)%nat -> (Z.to_nat (size b) < fuel)%nat ->
  view_eq T_eq fuel dbg objs mem this other =
  view_eq T_eq fuel dbg objs mem other this.
Proof.
  intros Hsym Ha Hb Hba Hbb Hfa Hfb.
  destruct (decide (data a = data b)) as [Heq | Hne].
  - unfold view_eq. rewrite Ha, Hb, Heq, ptr_eqb_refl. reflexivity.
  - destruct (view_eq_backed fuel dbg objs mem this other a b
                Ha Hb Hne Hba Hbb Hfa) as [r1 [H1 Hiff1]].
    destruct (view_eq_backed fuel dbg objs mem other this b a
                Hb Ha ltac:(congruence) Hbb Hba Hfb) as [r2 [H2 Hiff2]].
    rewrite H1, H2. f_equal. f_equal.
    assert (Hflip : size a = size b /\ pairwise_equal T_eq mem a b <->
                    size b = size a /\ pairwise_equal T_eq mem b a).
    { unfold pairwise_equal.
      split; intros [Hs Hall]; (split; [congruence |]); intros i Hi;
        (destruct (Hall i ltac:(lia)) as [x [y [Hx [Hy Hxy]]]]);
        exists y, x; repeat split; try assumption; rewrite Hsym; exact Hxy. }
    destruct r1, r2; try reflexivity.
    + assert (false = true) by (apply Hiff2, Hflip, Hiff1; reflexivity). discriminate.
    + assert (false = true) by (apply Hiff1, Hflip, Hiff2; reflexivity). discriminate.
Qed.

(** X23: [operator==] is not transitive.  When [a] and [b] have the same
    pointer and different sizes they are equal; a view [c] with another
    pointer that is equal to [b] is then unequal to [a]. *)
Theorem view_eq_not_transitive (fuel : nat) (dbg : bool) objs mem (x y z : Z) a b c :
  objs !! x = Some a -> objs !! y = Some b -> objs !! z = Some c ->
  data a = data b -> size a <> size b -> data c <> data b ->
  view_eq T_eq fuel dbg objs mem y z = Some (Ok true) ->
  view_eq T_eq fuel dbg objs mem x y = Some (Ok true) /\
  view_eq T_eq fuel dbg objs mem x z = Some (Ok false).
Proof.
  intros Ha Hb Hc Hab Hsz Hcb Hyz. unfold view_eq in *.
  rewrite Ha, Hb, Hc. rewrite Hb, Hc in Hyz.
  rewrite Hab, ptr_eqb_refl. split; [reflexivity |].
  assert (Hbc : ptr_eqb (data b) (data c) = false)
    by (apply ptr_eqb_false; congruence).
  rewrite Hbc in *.
  destruct (Z.eqb_spec (size b) (size c)) as [Hs | Hs]; cbn [negb] in Hyz;
    [| discriminate].
  destruct (Z.eqb_spec (size a) (size c)) as [Hs' | Hs']; [congruence |].
  reflexivity.
Qed.

End view_equality_more.

Lemma view_eq_empty_or_null_witness :
  view_eq Z.eqb 1 true
    (<[1 := array_view_default]> (<[2 := array_view_of (addr 100) 0]> ∅))
    six_ints 1 2 = Some (Ok true).
Proof.
  apply (view_eq_empty_or_null Z.eqb 0 true _ six_ints 1 2
           array_view_default (array_view_of (addr 100) 0)).
  - reflexivity.
  - reflexivity.
  - left. split; reflexivity.
Defined.

Lemma pair_backed (p : Z) :
  p = 10 \/ p = 20 -> backed_by pair_ints (array_view_of (addr p) 2).
Proof.
  intros Hp. split; [vm_compute; split; discriminate |].
  intros i Hi. cbn in Hi.
  assert (i = 0 \/ i = 1) as [-> | ->] by lia;
    destruct Hp as [-> | ->]; eexists; reflexivity.
Defined.

Lemma view_eq_symmetric_witness :
  view_eq Z.eqb 3 true pair_objs pair_ints 1 2 =
  view_eq Z.eqb 3 true pair_objs pair_ints 2 1.
Proof.
  apply (view_eq_symmetric Z.eqb 3 true pair_objs pair_ints 1 2
           (array_view_of (addr 10) 2) (array_view_of (addr 20) 2)).
  - intros x y. apply Z.eqb_sym.
  - reflexivity.
  - reflexivity.
  - apply pair_backed. left. reflexivity.
  - apply pair_backed. right. reflexivity.
  - cbn. lia.
  - cbn. lia.
Defined.

Lemma view_eq_not_transitive_witness :
  view_eq Z.eqb 3 true pair_objs pair_ints 3 1 = Some (Ok true) /\
  view_eq Z.eqb 3 true pair_objs pair_ints 3 2 = Some (Ok false).
Proof.
  apply (view_eq_not_transitive Z.eqb 3 true pair_objs pair_ints 3 1 2
           (array_view_of (addr 10) 1) (array_view_of (addr 10) 2)
           (array_view_of (addr 20) 2)).
  - reflexivity.
  - reflexivity.
  - reflexivity.
  - reflexivity.
  - discriminate.
  - discriminate.
  - reflexivity.
Defined.

(** ** Strided views, continued *)

(** X24: the size of a strided view made from [n] structures.  When the
    structure size is the stride and [n * sizeof(S)] fits [size_type], the
    view has [size_bytes() == n * sizeof(S)] and [size() == n], and it is
    empty exactly when [n] is 0. *)
Theorem strided_of_size (StrideBytes : Z) (p : pointer) (n : Z) :
  0 < StrideBytes -> 0 <= n -> n * StrideBytes <= SIZE_MAX ->
  Strided.size_bytes (Strided.strided_of p n StrideBytes) = n * StrideBytes /\
  Strided.size StrideBytes (Strided.strided_of p n StrideBytes) = n /\
  (Strided.empty (Strided.strided_of p n StrideBytes) = true <-> n = 0).
Proof.
  intros Hs Hn Hfit.
  assert (Hbytes : Strided.size_bytes (Strided.strided_of p n StrideBytes) =
                   n * StrideBytes).
  { unfold Strided.size_bytes, Strided.strided_of. cbn [Strided.m_size_in_bytes].
    apply to_size_t_id. unfold in_size_t. nia. }
  split; [exact Hbytes |]. split.
  - unfold Strided.size, Strided.stride_bytes. rewrite Hbytes.
    apply Z.div_mul. lia.
  - unfold Strided.empty. rewrite Hbytes, Z.eqb_eq. nia.
Qed.

Lemma strided_of_size_witness :
  Strided.size_bytes (Strided.strided_of (addr 1000) 4 8) = 4 * 8 /\
  Strided.size 8 (Strided.strided_of (addr 1000) 4 8) = 4 /\
  (Strided.empty (Strided.strided_of (addr 1000) 4 8) = true <-> 4 = 0).
Proof.
  apply (strided_of_size 8 (addr 1000) 4); [lia | lia | vm_compute; discriminate].
Defined.

Lemma strided_index_wrap (StrideBytes : Z) (sv : Strided.strided_array_view) (i : Z) :
  0 < StrideBytes -> in_size_t (Strided.size_bytes sv) ->
  0 <= i < Strided.size StrideBytes sv ->
  to_size_t (i * StrideBytes) = i * StrideBytes /\
  (i + 1) * StrideBytes <= Strided.size_bytes sv.
Proof.
  intros Hs [Hlo Hhi] Hi. unfold Strided.size, Strided.stride_bytes in Hi.
  pose proof (Z.mul_div_le (Strided.size_bytes sv) StrideBytes Hs) as Hmul.
  assert (Hle : (i + 1) * StrideBytes <= Strided.size_bytes sv) by nia.
  split; [| exact Hle].
  apply to_size_t_id. unfold in_size_t. nia.
Qed.

(** X25: where a checked strided access reads.  For a strided view with a
    pointer [base], a byte size that fits [size_type], [0 < StrideBytes]
    and [0 <= OffsetBytes < StrideBytes], and every index [i] below
    [size()]: the item address is [base + i * StrideBytes + OffsetBytes],
    it lies inside structure [i] and inside the [size_bytes()] bytes of the
    buffer, and [at(i)] and [operator[]] (in either build configuration)
    read the object at that address. *)
Theorem strided_at_address {T : Type} (OffsetBytes StrideBytes : Z)
    (mem : gmap Z T) (sv : Strided.strided_array_view) (base i : Z) :
  Strided.data sv = addr base -> in_size_t (Strided.size_bytes sv) ->
  0 < StrideBytes -> 0 <= OffsetBytes < StrideBytes ->
  0 <= i < Strided.size StrideBytes sv ->
  Strided.get_item_raw_ptr OffsetBytes StrideBytes sv i =
    addr (base + i * StrideBytes + OffsetBytes) /\
  base + i * StrideBytes <= base + i * StrideBytes + OffsetBytes
    < base + (i + 1) * StrideBytes /\
  base + (i + 1) * StrideBytes <= base + Strided.size_bytes sv /\
  Strided.at_ OffsetBytes StrideBytes mem sv i =
    load mem (addr (base + i * StrideBytes + OffsetBytes)) /\
  (forall dbg, Strided.subscript OffsetBytes StrideBytes dbg mem sv i =
     Strided.at_ OffsetBytes StrideBytes mem sv i).
Proof.
  intros Hd Hsz Hs Ho Hi.
  destruct (strided_index_wrap StrideBytes sv i Hs Hsz Hi) as [Hwrap Hle].
  assert (Hptr : Strided.get_item_raw_ptr OffsetBytes StrideBytes sv i =
                 addr (base + i * StrideBytes + OffsetBytes)).
  { unfold Strided.get_item_raw_ptr, Strided.stride_bytes, Strided.offset_bytes.
    unfold Strided.data in Hd. rewrite Hd, Hwrap. reflexivity. }
  assert (Hchecks : error_if (ptr_eqb (Strided.data sv) nullptr) strided_null_pointer = Ok ()
                    /\ (Strided.size StrideBytes sv <=? i) = false).
  { rewrite Hd. split; [reflexivity | apply Z.leb_gt; lia]. }
  destruct Hchecks as [Hnull Hin].
  split; [exact Hptr |]. split; [nia |]. split; [lia |].
  assert (Hat : Strided.at_ OffsetBytes StrideBytes mem sv i =
                load mem (addr (base + i * StrideBytes + OffsetBytes))).
  { unfold Strided.at_. rewrite Hnull, Hin, Hptr. reflexivity. }
  split; [exact Hat |].
  intros dbg. rewrite Hat. unfold Strided.subscript.
  rewrite Hnull, Hin, Hptr. destruct dbg; reflexivity.
Qed.

Lemma strided_at_address_witness :
  Strided.get_item_raw_ptr 4 8 four_y 2 = addr (1000 + 2 * 8 + 4) /\
  1000 + 2 * 8 <= 1000 + 2 * 8 + 4 < 1000 + (2 + 1) * 8 /\
  1000 + (2 + 1) * 8 <= 1000 + Strided.size_bytes four_y /\
  Strided.at_ 4 8 four_structs four_y 2 = load four_structs (addr (1000 + 2 * 8 + 4)) /\
  (forall dbg, Strided.subscript 4 8 dbg four_structs four_y 2 =
     Strided.at_ 4 8 four_structs four_y 2).
Proof.
  apply (strided_at_address 4 8 four_structs four_y 1000 2).
  - reflexivity.
  - unfold in_size_t. vm_compute. split; discriminate.
  - lia.
  - lia.
  - vm_compute. split; [discriminate | reflexivity].
Defined.

(** X26: items of a strided view do not overlap.  Under the conditions of
    X25, two indices [i < j] below [size()] give item addresses at least
    [StrideBytes] apart, so different indices never name the same object. *)
Theorem strided_items_apart (OffsetBytes StrideBytes : Z)
    (sv : Strided.strided_array_view) (base i j : Z) :
  Strided.data sv = addr base -> in_size_t (Strided.size_bytes sv) ->
  0 < StrideBytes ->
  0 <= i -> i < j -> j < Strided.size StrideBytes sv ->
  exists ai aj,
    Strided.get_item_raw_ptr OffsetBytes StrideBytes sv i = addr ai /\
    Strided.get_item_raw_ptr OffsetBytes StrideBytes sv j = addr aj /\
    ai + StrideBytes <= aj.
Proof.
  intros Hd Hsz Hs Hi Hij Hj.
  destruct (strided_index_wrap StrideBytes sv i Hs Hsz ltac:(lia)) as [Hwi _].
  destruct (strided_index_wrap StrideBytes sv j Hs Hsz ltac:(lia)) as [Hwj _].
  unfold Strided.get_item_raw_ptr, Strided.stride_bytes, Strided.offset_bytes.
  unfold Strided.data in Hd. rewrite Hd, Hwi, Hwj. cbn [ptr_add].
  eexists. eexists. split; [reflexivity |]. split; [reflexivity |]. nia.
Qed.

Lemma strided_items_apart_witness :
  exists ai aj,
    Strided.get_item_raw_ptr 4 8 four_y 1 = addr ai /\
    Strided.get_item_raw_ptr 4 8 four_y 3 = addr aj /\
    ai + 8 <= aj.
Proof.
  apply (strided_items_apart 4 8 four_y 1000 1 3).
  - reflexivity.
  - unfold in_size_t. vm_compute. split; discriminate.
  - lia.
  - lia.
  - lia.
  - vm_compute. reflexivity.
Defined.

(** X27: [front()] and [back()] of a strided view.  On a view with a
    pointer and [size() > 0] (byte size within [size_type]) they are
    [at(0)] and [at(size() - 1)], in either build configuration. *)
Theorem strided_front_back_in_range {T : Type} (OffsetBytes StrideBytes : Z)
    (dbg : bool) (mem : gmap Z T) (sv : Strided.strided_array_view) :
  Strided.data sv <> nullptr -> in_size_t (Strided.size_bytes sv) ->
  0 < StrideBytes -> 0 < Strided.size StrideBytes sv ->
  Strided.front OffsetBytes StrideBytes dbg mem sv =
    Strided.at_ OffsetBytes StrideBytes mem sv 0 /\
  Strided.back OffsetBytes StrideBytes dbg mem sv =
    Strided.at_ OffsetBytes StrideBytes mem sv (Strided.size StrideBytes sv - 1).
Proof.
  intros Hd Hsz Hs Hpos.
  assert (Hlast : to_size_t (Strided.size StrideBytes sv - 1) =
                  Strided.size StrideBytes sv - 1).
  { apply to_size_t_id. destruct Hsz as [Hlo Hhi]. unfold in_size_t.
    pose proof (Z.mul_div_le (Strided.size_bytes sv) StrideBytes Hs) as Hmul.
    unfold Strided.size, Strided.stride_bytes in *. nia. }
  apply ptr_eqb_false in Hd.
  unfold Strided.front, Strided.back, Strided.subscript, Strided.at_.
  rewrite Hlast, Hd. cbn [error_if].
  assert (H0 : (Strided.size StrideBytes sv <=? 0) = false) by (apply Z.leb_gt; lia).
  assert (H1 : (Strided.size StrideBytes sv <=? Strided.size StrideBytes sv - 1) = false)
    by (apply Z.leb_gt; lia).
  rewrite H0, H1. destruct dbg; split; reflexivity.
Qed.

Lemma strided_front_back_in_range_witness :
  Strided.front 4 8 true four_structs four_y = Strided.at_ 4 8 four_structs four_y 0 /\
  Strided.back 4 8 true four_structs four_y =
    Strided.at_ 4 8 four_structs four_y (Strided.size 8 four_y - 1).
Proof.
  apply (strided_front_back_in_range 4 8 true four_structs four_y).
  - discriminate.
  - unfold in_size_t. vm_compute. split; discriminate.
  - lia.
  - vm_compute. reflexivity.
Defined.

(** ** Null iterators and null views *)

(** X28: the iterators of a view are null exactly when the view is:
    [begin() == nullptr] and [end() == nullptr] hold exactly when
    [view == nullptr].  On a null iterator every [+] and [-] raises the
    invalid-iterator error in a build with debug checks; in a build without
    them [it + d] and [it - d] are the null iterator with the index moved
    to [index + d] and [index - d] (when that fits [difference_type]), and
    whatever they return is still null. *)
Theorem null_iterators (this : Z) (v : array_view) (it : array_iterator_base) (d : Z) :
  iter_is_null (begin this v) = is_null v /\
  iter_is_null (end_ this v) = is_null v /\
  (iter_is_null it = true ->
     iter_plus true it d = Err incrementing_invalid_iterator /\
     iter_minus true it d = Err decrementing_invalid_iterator /\
     (in_ptrdiff_t (m_current_index it + d) ->
        iter_plus false it d =
        Ok {| m_parent_array := nullptr;
              m_current_index := m_current_index it + d |}) /\
     (in_ptrdiff_t (m_current_index it - d) ->
        iter_minus false it d =
        Ok {| m_parent_array := nullptr;
              m_current_index := m_current_index it - d |}) /\
     (forall a, iter_plus false it d = Ok a \/ iter_minus false it d = Ok a ->
        iter_is_null a = true)).
Proof.
  split; [| split].
  - unfold begin, make_iterator, is_null, iter_is_null.
    destruct (ptr_eqb (data v) nullptr); reflexivity.
  - unfold end_, make_iterator, is_null, iter_is_null.
    destruct (ptr_eqb (data v) nullptr); reflexivity.
  - intros Hnull.
    assert (Hp : m_parent_array it = nullptr) by (apply ptr_eqb_true, Hnull).
    split; [| split; [| split; [| split]]].
    + unfold iter_plus, increment. rewrite Hp. reflexivity.
    + unfold iter_minus, decrement. rewrite Hp. reflexivity.
    + intros Hfit. unfold iter_plus.
      rewrite (increment_ok false it d (or_intror eq_refl) Hfit), Hp. reflexivity.
    + intros Hfit. unfold iter_minus.
      rewrite (decrement_ok false it d (or_intror eq_refl) Hfit), Hp. reflexivity.
    + unfold iter_is_null, iter_plus, iter_minus, increment, decrement.
      cbn [debug_only mbind result_bind]. intros a [Ha | Ha].
      * destruct (fits_ptrdiff_t (m_current_index it + d)); [| discriminate].
        injection Ha as <-. exact Hnull.
      * destruct (fits_ptrdiff_t (m_current_index it - d)); [| discriminate].
        injection Ha as <-. exact Hnull.
Qed.

Lemma null_iterators_witness :
  iter_plus true (begin 2000 null_five) 3 = Err incrementing_invalid_iterator /\
  iter_minus true (begin 2000 null_five) 3 = Err decrementing_invalid_iterator /\
  iter_plus false (begin 2000 null_five) 3 =
    Ok {| m_parent_array := nullptr;
          m_current_index := m_current_index (begin 2000 null_five) + 3 |} /\
  iter_minus false (begin 2000 null_five) 3 =
    Ok {| m_parent_array := nullptr;
          m_current_index := m_current_index (begin 2000 null_five) - 3 |}.
Proof.
  pose proof (proj2 (proj2 (null_iterators 2000 null_five (begin 2000 null_five) 3))
                eq_refl) as [Hplus [Hminus [Hmove [Hback _]]]].
  split; [exact Hplus |]. split; [exact Hminus |]. split.
  - apply Hmove. vm_compute. split; discriminate.
  - apply Hback. vm_compute. split; discriminate.
Defined.

(** X29: comparing a view that has elements with a null view of the same
    declared size.  With the null view on the right, [operator==] reads the
    first element on the left and then dereferences the null iterator of
    the right: a build with debug checks raises the not-dereferenceable
    error (inside a [noexcept] function), a build without them dereferences
    a null parent pointer.  With the null view on the left the answer is
    true (X21), so the comparison is not symmetric on such views. *)
Theorem view_eq_null_on_the_right {T : Type} (T_eq : T -> T -> bool) (fuel : nat)
    (objs : gmap Z array_view) (mem : gmap Z T) (this other : Z) (a b : array_view) :
  objs !! this = Some a -> objs !! other = Some b ->
  backed_by mem a -> 0 < size a -> data b = nullptr -> size b = size a ->
  view_eq T_eq (S fuel) true objs mem this other =
    Some (Err iterator_star_not_dereferenceable) /\
  view_eq T_eq (S fuel) false objs mem this other = Some UB /\
  view_eq T_eq (S fuel) true objs mem other this = Some (Ok true).
Proof.
  intros Ha Hb Hba Hpos Hnull Hsz.
  pose proof (backed_by_not_null mem a Hba Hpos) as Hpa.
  destruct Hba as [Hrange Hread]. destruct (Hread 0 ltac:(lia)) as [x Hx].
  assert (Hne : ptr_eqb (data a) (data b) = false).
  { apply ptr_eqb_false. congruence. }
  assert (Hne' : ptr_eqb (data b) (data a) = false).
  { apply ptr_eqb_false. congruence. }
  assert (Hstep : forall dbg,
            iter_star dbg objs mem
              {| m_parent_array := addr this; m_current_index := 0 |} = Ok x).
  { intros dbg. rewrite (iter_star_in_range dbg objs mem this a 0)
      by (assumption || lia). exact Hx. }
  assert (Hloop : forall dbg,
            std_equal T_eq (S fuel) dbg objs mem
              {| m_parent_array := addr this; m_current_index := 0 |}
              {| m_parent_array := addr this; m_current_index := size a |}
              iterator_default =
            match equal_step T_eq dbg objs mem
                    {| m_parent_array := addr this; m_current_index := 0 |}
                    iterator_default with
            | Ok (Some (f1, f2)) =>
                std_equal T_eq fuel dbg objs mem f1
                  {| m_parent_array := addr this; m_current_index := size a |} f2
            | Ok None => Some (Ok false)
            | Err e => Some (Err e)
            | UB => Some UB
            end).
  { intros dbg. cbn [std_equal]. rewrite iter_ne_same_parent.
    destruct (Z.eqb_spec 0 (size a)); [lia | reflexivity]. }
  unfold view_eq. rewrite Ha, Hb, Hne, Hne', Hsz, Z.eqb_refl. cbn [negb].
  destruct (begin_end_bound this a Hpa) as [-> ->].
  destruct (begin_end_null other b Hnull) as [-> ->].
  rewrite to_ptrdiff_t_id by (apply (in_ptrdiff_t_index (size a)); lia).
  rewrite !Hloop. unfold equal_step. rewrite !Hstep.
  split; [reflexivity |]. split; [reflexivity |].
  apply std_equal_empty_range.
Qed.

Lemma view_eq_null_on_the_right_witness :
  view_eq Z.eqb 1 true
    (<[1 := array_view_of (addr 10) 2]> (<[2 := array_view_of nullptr 2]> ∅))
    pair_ints 1 2 = Some (Err iterator_star_not_dereferenceable) /\
  view_eq Z.eqb 1 false
    (<[1 := array_view_of (addr 10) 2]> (<[2 := array_view_of nullptr 2]> ∅))
    pair_ints 1 2 = Some UB /\
  view_eq Z.eqb 1 true
    (<[1 := array_view_of (addr 10) 2]> (<[2 := array_view_of nullptr 2]> ∅))
    pair_ints 2 1 = Some (Ok true).
Proof.
  apply (view_eq_null_on_the_right Z.eqb 0 _ pair_ints 1 2
           (array_view_of (addr 10) 2) (array_view_of nullptr 2)).
  - reflexivity.
  - reflexivity.
  - apply pair_backed. left. reflexivity.
  - reflexivity.
  - reflexivity.
  - reflexivity.
Defined.
